(** * The realtime voice session hook [useWebRTCAudioSession]

    A shallow embedding of the session/transport core of the client: the
    React hook that owns the media connection, the side-channel message
    handler, the conversation log, the tool registry and the teardown.

    State cells ([useState] values and [useRef] cells) are the fields of one
    record, handlers are computations in a small state-and-exception monad
    that also records the calls made on browser objects (sends, closes,
    fetches, timers).  Console output is not part of the model.  Values the
    environment supplies (fresh uuids, timestamps, network answers, tool
    results) are arguments of the handlers. *)

From Stdlib Require Import QArith Ascii.
From stdpp Require Import base option list strings pretty gmap.

(** ** Data model *)

Inductive Role := user | assistant.

#[export] Instance Role_eq_dec : EqDecision Role.
Proof. solve_decision. Defined.

(** The value of a [text] field.  The types say [string], and nothing
    checks it: the [text] of a transcription answer is tested for
    truthiness and then stored and sent as it came.  So a text is a string
    or another value, which is given by what the hook can tell of it:
    whether it is truthy, and the string it turns into under [+]. *)
Inductive Text :=
| Str (s : string)
| NotString (truthy : bool) (toString : string).

Coercion Str : string >-> Text.

(** [text + delta] *)
Definition Text_append (text : Text) (delta : string) : Text :=
  match text with
  | Str s => Str (s +:+ delta)
  | NotString _ toString => Str (toString +:+ delta)
  end.

Module Conversation.

(** Modelled from the spec: the [Conversation] entry type is imported from
    [@/lib/conversations], which is not among the sources.  Its fields are
    the ones the spec lists for a ConversationEntry (id, role, text,
    timestamp, isFinal, status) and the ones the hook writes; [status] is
    optional (assistant entries are created without it), and [text] holds
    what the hook stores in it (see [Text]). *)
Record t := mk {
  id : string;
  role : Role;
  text : Text;
  timestamp : string;
  isFinal : bool;
  status : option string
}.

(** [Partial<Conversation>], restricted to the keys the hook passes. *)
Record partial := mkPartial {
  p_text : option Text;
  p_isFinal : option bool;
  p_status : option string
}.

(** [{ ...msg, ...partial }] *)
Definition merge (msg : t) (p : partial) : t :=
  mk (id msg) (role msg)
     (default (text msg) (p_text p))
     (timestamp msg)
     (default (isFinal msg) (p_isFinal p))
     (match p_status p with Some st => Some st | None => status msg end).

End Conversation.

Module Blob.

(** A [Blob]: its bytes and its MIME type. *)
Record t := mk { content : list Byte.byte; type : string }.

Definition size (b : t) : nat := length (content b).

(** [new Blob(parts, { type })] concatenates the parts in order. *)
Definition new (parts : list t) (type : string) : t :=
  mk (concat (map content parts)) type.

End Blob.

Module Msg.

(** An inbound side-channel message after [JSON.parse], read at the keys the
    handler uses. *)
Record t := mk {
  type : string;
  delta : string;
  name : string;
  arguments : string;
  call_id : string
}.

End Msg.

Record MessageEvent := { data : string }.

Inductive RTCDataChannelState := connecting | open | closing | closed.

#[export] Instance RTCDataChannelState_eq_dec : EqDecision RTCDataChannelState.
Proof. solve_decision. Defined.

Record RTCDataChannel := { readyState : RTCDataChannelState }.

Inductive RecordingState := inactive | recording | paused.

#[export] Instance RecordingState_eq_dec : EqDecision RecordingState.
Proof. solve_decision. Defined.

Module MediaRecorder.
Record t := mk { state : RecordingState; mimeType : string }.
End MediaRecorder.

Record MediaStreamTrack := { enabled : bool }.

(** A [MediaStream] is given by its audio tracks. *)
Definition MediaStream := list MediaStreamTrack.

(** The indicator element, with whether its class list holds "active". *)
Record HTMLDivElement := { active : bool }.

Inductive AudioContext := audioContext.
Inductive RTCPeerConnection := peerConnection.
Inductive AnalyserNode := analyserNode.

(** ** Exceptions and results of calls *)

Inductive Exn :=
| SyntaxError
| TypeError
| InvalidStateError
| Error (message : string)
| Rejected (reason : string).

Inductive Outcome (A : Type) :=
| Returned (a : A)
| Thrown (e : Exn).

Arguments Returned {A} a.
Arguments Thrown {A} e.

(** JSON as the hook uses it: values are opaque, [JSON.parse] may throw.
    [Object_prototype] is what a plain object inherits under a name from
    [Object.prototype], as the function a call of it is: [None] when
    nothing is there, and a value that cannot be called is a function that
    throws a [TypeError].  The call has no [this]. *)
Class JSON := {
  JSValue : Type;
  JSON_parse : string -> option JSValue;
  JSON_stringify : JSValue -> string;
  JSON_parse_message : string -> option Msg.t;
  Object_prototype : string -> option (JSValue -> Outcome JSValue)
}.

(** ** Calls on browser objects *)

(** Payloads the client sends on the side-channel. *)
Inductive ClientEvent :=
| session_update
| conversation_item_create (input_text : Text)
| function_call_output (call_id output : string)
| response_create.

Inductive TimerCallback := speechStoppedTimeout.

Inductive Effect :=
| DataChannelSend (payload : ClientEvent)
| DataChannelClose
| PeerConnectionClose
| AudioContextClose
| TrackStop
| ClearInterval (handle : Z)
| ClearTimeout (handle : Z)
| RecorderStart (timeslice : nat)
| RecorderRequestData
| RecorderStop
| SetTimeout (callback : TimerCallback) (ms : nat)
| Fetch (url filename : string) (audio : Blob.t).

(** ** What the environment supplies *)

(** One handler run draws at most one uuid and one timestamp. *)
Record Env := {
  uuidv4 : string;               (* [uuidv4()] *)
  now : string                   (* [new Date().toISOString()] *)
}.

(** The body of a transcription answer after [response.json()]: the JSON
    value [null], or any other value with its [text] property when it has
    one, a string or not. *)
Inductive TranscriptionData :=
| json_null
| json_value (text : option Text).

Module Response.

Record t := mk {
  status : nat;
  text : Outcome string;             (* [await response.text()] *)
  json : Outcome TranscriptionData   (* [await response.json()] *)
}.

Definition ok (r : t) : bool := (200 <=? status r) && (status r <? 300).

End Response.

(** What [startSession] meets on its way. *)
Record StartEnv := {
  getUserMedia : Outcome MediaStream;
  getEphemeralToken : Outcome string;
  isTypeSupported : string -> bool;      (* [MediaRecorder.isTypeSupported] *)
  negotiation : Outcome unit             (* offer, SDP exchange, answer *)
}.

(** ** JavaScript helpers *)

(** [s.includes(sub)] *)
Fixpoint includes (s sub : string) : bool :=
  String.prefix sub s ||
  match s with
  | EmptyString => false
  | String _ s' => includes s' sub
  end.

(** Truthiness of a string or [null], and of a timer handle or [null]. *)
Definition truthy (v : option string) : bool :=
  match v with
  | Some s => negb (String.eqb s "")
  | None => false
  end.

(** Truthiness of a text or [undefined]. *)
Definition truthy_text (v : option Text) : bool :=
  match v with
  | Some (Str s) => negb (String.eqb s "")
  | Some (NotString truthy _) => truthy
  | None => false
  end.

Definition truthy_handle (v : option Z) : bool :=
  match v with
  | Some z => negb (z =? 0)%Z
  | None => false
  end.

(** [`${err}`] *)
Definition Exn_toString (e : Exn) : string :=
  match e with
  | SyntaxError => "SyntaxError"
  | TypeError => "TypeError"
  | InvalidStateError => "InvalidStateError"
  | Error message => "Error: " +:+ message
  | Rejected reason => reason
  end.

Section Hook.

Context `{JSON}.

(** A registered tool: called with the parsed arguments, it returns a
    value or throws (a rejected promise, once awaited, throws as well). *)
Definition Fn : Type := JSValue -> Outcome JSValue.

(** ** The hook's state: [useState] values and [useRef] cells *)

Record Session := mkSession {
  status : string;
  isSessionActive : bool;
  isMicMuted : bool;
  audioIndicatorRef : option HTMLDivElement;
  audioContextRef : option AudioContext;
  audioStreamRef : option MediaStream;
  peerConnectionRef : option RTCPeerConnection;
  dataChannelRef : option RTCDataChannel;
  mediaRecorderRef : option MediaRecorder.t;
  msgs : list Msg.t;
  conversation : list Conversation.t;
  functionRegistry : gmap string Fn;
  currentVolume : Q;
  analyserRef : option AnalyserNode;
  volumeIntervalRef : option Z;
  timeoutRef : option Z;
  ephemeralUserMessageIdRef : option string;
  audioChunksRef : list Blob.t
}.

(** The values the hook is created with. *)
Definition initial : Session :=
  {| status := "";
     isSessionActive := false;
     isMicMuted := false;
     audioIndicatorRef := None;
     audioContextRef := None;
     audioStreamRef := None;
     peerConnectionRef := None;
     dataChannelRef := None;
     mediaRecorderRef := None;
     msgs := [];
     conversation := [];
     functionRegistry := ∅;
     currentVolume := 0%Q;
     analyserRef := None;
     volumeIntervalRef := None;
     timeoutRef := None;
     ephemeralUserMessageIdRef := None;
     audioChunksRef := [] |}.

Definition set_status (v : string) (s : Session) : Session :=
  mkSession v (s.(isSessionActive)) (s.(isMicMuted)) (s.(audioIndicatorRef))
    (s.(audioContextRef)) (s.(audioStreamRef)) (s.(peerConnectionRef))
    (s.(dataChannelRef)) (s.(mediaRecorderRef)) (s.(msgs)) (s.(conversation))
    (s.(functionRegistry)) (s.(currentVolume)) (s.(analyserRef))
    (s.(volumeIntervalRef)) (s.(timeoutRef)) (s.(ephemeralUserMessageIdRef))
    (s.(audioChunksRef)).

Definition set_isSessionActive (v : bool) (s : Session) : Session :=
  mkSession (s.(status)) v (s.(isMicMuted)) (s.(audioIndicatorRef))
    (s.(audioContextRef)) (s.(audioStreamRef)) (s.(peerConnectionRef))
    (s.(dataChannelRef)) (s.(mediaRecorderRef)) (s.(msgs)) (s.(conversation))
    (s.(functionRegistry)) (s.(currentVolume)) (s.(analyserRef))
    (s.(volumeIntervalRef)) (s.(timeoutRef)) (s.(ephemeralUserMessageIdRef))
    (s.(audioChunksRef)).

Definition set_isMicMuted (v : bool) (s : Session) : Session :=
  mkSession (s.(status)) (s.(isSessionActive)) v (s.(audioIndicatorRef))
    (s.(audioContextRef)) (s.(audioStreamRef)) (s.(peerConnectionRef))
    (s.(dataChannelRef)) (s.(mediaRecorderRef)) (s.(msgs)) (s.(conversation))
    (s.(functionRegistry)) (s.(currentVolume)) (s.(analyserRef))
    (s.(volumeIntervalRef)) (s.(timeoutRef)) (s.(ephemeralUserMessageIdRef))
    (s.(audioChunksRef)).

Definition set_audioIndicatorRef (v : option HTMLDivElement) (s : Session)
    : Session :=
  mkSession (s.(status)) (s.(isSessionActive)) (s.(isMicMuted)) v
    (s.(audioContextRef)) (s.(audioStreamRef)) (s.(peerConnectionRef))
    (s.(dataChannelRef)) (s.(mediaRecorderRef)) (s.(msgs)) (s.(conversation))
    (s.(functionRegistry)) (s.(currentVolume)) (s.(analyserRef))
    (s.(volumeIntervalRef)) (s.(timeoutRef)) (s.(ephemeralUserMessageIdRef))
    (s.(audioChunksRef)).

Definition set_audioContextRef (v : option AudioContext) (s : Session)
    : Session :=
  mkSession (s.(status)) (s.(isSessionActive)) (s.(isMicMuted))
    (s.(audioIndicatorRef)) v (s.(audioStreamRef)) (s.(peerConnectionRef))
    (s.(dataChannelRef)) (s.(mediaRecorderRef)) (s.(msgs)) (s.(conversation))
    (s.(functionRegistry)) (s.(currentVolume)) (s.(analyserRef))
    (s.(volumeIntervalRef)) (s.(timeoutRef)) (s.(ephemeralUserMessageIdRef))
    (s.(audioChunksRef)).

Definition set_audioStreamRef (v : option MediaStream) (s : Session)
    : Session :=
  mkSession (s.(status)) (s.(isSessionActive)) (s.(isMicMuted))
    (s.(audioIndicatorRef)) (s.(audioContextRef)) v (s.(peerConnectionRef))
    (s.(dataChannelRef)) (s.(mediaRecorderRef)) (s.(msgs)) (s.(conversation))
    (s.(functionRegistry)) (s.(currentVolume)) (s.(analyserRef))
    (s.(volumeIntervalRef)) (s.(timeoutRef)) (s.(ephemeralUserMessageIdRef))
    (s.(audioChunksRef)).

Definition set_peerConnectionRef (v : option RTCPeerConnection) (s : Session)
    : Session :=
  mkSession (s.(status)) (s.(isSessionActive)) (s.(isMicMuted))
    (s.(audioIndicatorRef)) (s.(audioContextRef)) (s.(audioStreamRef)) v
    (s.(dataChannelRef)) (s.(mediaRecorderRef)) (s.(msgs)) (s.(conversation))
    (s.(functionRegistry)) (s.(currentVolume)) (s.(analyserRef))
    (s.(volumeIntervalRef)) (s.(timeoutRef)) (s.(ephemeralUserMessageIdRef))
    (s.(audioChunksRef)).

Definition set_dataChannelRef (v : option RTCDataChannel) (s : Session)
    : Session :=
  mkSession (s.(status)) (s.(isSessionActive)) (s.(isMicMuted))
    (s.(audioIndicatorRef)) (s.(audioContextRef)) (s.(audioStreamRef))
    (s.(peerConnectionRef)) v (s.(mediaRecorderRef)) (s.(msgs))
    (s.(conversation)) (s.(functionRegistry)) (s.(currentVolume))
    (s.(analyserRef)) (s.(volumeIntervalRef)) (s.(timeoutRef))
    (s.(ephemeralUserMessageIdRef)) (s.(audioChunksRef)).

Definition set_mediaRecorderRef (v : option MediaRecorder.t) (s : Session)
    : Session :=
  mkSession (s.(status)) (s.(isSessionActive)) (s.(isMicMuted))
    (s.(audioIndicatorRef)) (s.(audioContextRef)) (s.(audioStreamRef))
    (s.(peerConnectionRef)) (s.(dataChannelRef)) v (s.(msgs))
    (s.(conversation)) (s.(functionRegistry)) (s.(currentVolume))
    (s.(analyserRef)) (s.(volumeIntervalRef)) (s.(timeoutRef))
    (s.(ephemeralUserMessageIdRef)) (s.(audioChunksRef)).

Definition set_msgs (v : list Msg.t) (s : Session) : Session :=
  mkSession (s.(status)) (s.(isSessionActive)) (s.(isMicMuted))
    (s.(audioIndicatorRef)) (s.(audioContextRef)) (s.(audioStreamRef))
    (s.(peerConnectionRef)) (s.(dataChannelRef)) (s.(mediaRecorderRef)) v
    (s.(conversation)) (s.(functionRegistry)) (s.(currentVolume))
    (s.(analyserRef)) (s.(volumeIntervalRef)) (s.(timeoutRef))
    (s.(ephemeralUserMessageIdRef)) (s.(audioChunksRef)).

Definition set_conversation (v : list Conversation.t) (s : Session)
    : Session :=
  mkSession (s.(status)) (s.(isSessionActive)) (s.(isMicMuted))
    (s.(audioIndicatorRef)) (s.(audioContextRef)) (s.(audioStreamRef))
    (s.(peerConnectionRef)) (s.(dataChannelRef)) (s.(mediaRecorderRef))
    (s.(msgs)) v (s.(functionRegistry)) (s.(currentVolume)) (s.(analyserRef))
    (s.(volumeIntervalRef)) (s.(timeoutRef)) (s.(ephemeralUserMessageIdRef))
    (s.(audioChunksRef)).

Definition set_functionRegistry (v : gmap string Fn) (s : Session)
    : Session :=
  mkSession (s.(status)) (s.(isSessionActive)) (s.(isMicMuted))
    (s.(audioIndicatorRef)) (s.(audioContextRef)) (s.(audioStreamRef))
    (s.(peerConnectionRef)) (s.(dataChannelRef)) (s.(mediaRecorderRef))
    (s.(msgs)) (s.(conversation)) v (s.(currentVolume)) (s.(analyserRef))
    (s.(volumeIntervalRef)) (s.(timeoutRef)) (s.(ephemeralUserMessageIdRef))
    (s.(audioChunksRef)).

Definition set_currentVolume (v : Q) (s : Session) : Session :=
  mkSession (s.(status)) (s.(isSessionActive)) (s.(isMicMuted))
    (s.(audioIndicatorRef)) (s.(audioContextRef)) (s.(audioStreamRef))
    (s.(peerConnectionRef)) (s.(dataChannelRef)) (s.(mediaRecorderRef))
    (s.(msgs)) (s.(conversation)) (s.(functionRegistry)) v (s.(analyserRef))
    (s.(volumeIntervalRef)) (s.(timeoutRef)) (s.(ephemeralUserMessageIdRef))
    (s.(audioChunksRef)).

Definition set_analyserRef (v : option AnalyserNode) (s : Session)
    : Session :=
  mkSession (s.(status)) (s.(isSessionActive)) (s.(isMicMuted))
    (s.(audioIndicatorRef)) (s.(audioContextRef)) (s.(audioStreamRef))
    (s.(peerConnectionRef)) (s.(dataChannelRef)) (s.(mediaRecorderRef))
    (s.(msgs)) (s.(conversation)) (s.(functionRegistry)) (s.(currentVolume)) v
    (s.(volumeIntervalRef)) (s.(timeoutRef)) (s.(ephemeralUserMessageIdRef))
    (s.(audioChunksRef)).

Definition set_volumeIntervalRef (v : option Z) (s : Session) : Session :=
  mkSession (s.(status)) (s.(isSessionActive)) (s.(isMicMuted))
    (s.(audioIndicatorRef)) (s.(audioContextRef)) (s.(audioStreamRef))
    (s.(peerConnectionRef)) (s.(dataChannelRef)) (s.(mediaRecorderRef))
    (s.(msgs)) (s.(conversation)) (s.(functionRegistry)) (s.(currentVolume))
    (s.(analyserRef)) v (s.(timeoutRef)) (s.(ephemeralUserMessageIdRef))
    (s.(audioChunksRef)).

Definition set_timeoutRef (v : option Z) (s : Session) : Session :=
  mkSession (s.(status)) (s.(isSessionActive)) (s.(isMicMuted))
    (s.(audioIndicatorRef)) (s.(audioContextRef)) (s.(audioStreamRef))
    (s.(peerConnectionRef)) (s.(dataChannelRef)) (s.(mediaRecorderRef))
    (s.(msgs)) (s.(conversation)) (s.(functionRegistry)) (s.(currentVolume))
    (s.(analyserRef)) (s.(volumeIntervalRef)) v
    (s.(ephemeralUserMessageIdRef)) (s.(audioChunksRef)).

Definition set_ephemeralUserMessageIdRef (v : option string) (s : Session)
    : Session :=
  mkSession (s.(status)) (s.(isSessionActive)) (s.(isMicMuted))
    (s.(audioIndicatorRef)) (s.(audioContextRef)) (s.(audioStreamRef))
    (s.(peerConnectionRef)) (s.(dataChannelRef)) (s.(mediaRecorderRef))
    (s.(msgs)) (s.(conversation)) (s.(functionRegistry)) (s.(currentVolume))
    (s.(analyserRef)) (s.(volumeIntervalRef)) (s.(timeoutRef)) v
    (s.(audioChunksRef)).

Definition set_audioChunksRef (v : list Blob.t) (s : Session) : Session :=
  mkSession (s.(status)) (s.(isSessionActive)) (s.(isMicMuted))
    (s.(audioIndicatorRef)) (s.(audioContextRef)) (s.(audioStreamRef))
    (s.(peerConnectionRef)) (s.(dataChannelRef)) (s.(mediaRecorderRef))
    (s.(msgs)) (s.(conversation)) (s.(functionRegistry)) (s.(currentVolume))
    (s.(analyserRef)) (s.(volumeIntervalRef)) (s.(timeoutRef))
    (s.(ephemeralUserMessageIdRef)) v.

(** ** The monad of handlers

    A computation runs from a state to an outcome (a value or a thrown
    exception), the state it leaves (writes made before a throw stay) and
    the calls it made on browser objects, in order. *)

Record Result (A : Type) := mkResult {
  outcome : Outcome A;
  final : Session;
  effects : list Effect
}.

Arguments mkResult {A} _ _ _.
Arguments outcome {A} _.
Arguments final {A} _.
Arguments effects {A} _.

Definition M (A : Type) : Type := Session -> Result A.

#[export] Instance M_ret : MRet M :=
  fun A a s => mkResult (Returned a) s [].

#[export] Instance M_bind : MBind M :=
  fun A B f m s =>
    match m s with
    | mkResult (Returned a) s1 e1 =>
        match f a s1 with
        | mkResult o s2 e2 => mkResult o s2 (e1 ++ e2)
        end
    | mkResult (Thrown e) s1 e1 => mkResult (Thrown e) s1 e1
    end.

Definition gets {A : Type} (f : Session -> A) : M A :=
  fun s => mkResult (Returned (f s)) s [].

Definition modify (f : Session -> Session) : M unit :=
  fun s => mkResult (Returned tt) (f s) [].

Definition emit (e : Effect) : M unit :=
  fun s => mkResult (Returned tt) s [e].

Definition throw {A : Type} (e : Exn) : M A :=
  fun s => mkResult (Thrown e) s [].

(** [try { body } catch (error) { handler }] *)
Definition try_catch {A : Type} (body : M A) (handler : Exn -> M A) : M A :=
  fun s =>
    match body s with
    | mkResult (Returned a) s1 e1 => mkResult (Returned a) s1 e1
    | mkResult (Thrown e) s1 e1 =>
        match handler e s1 with
        | mkResult o s2 e2 => mkResult o s2 (e1 ++ e2)
        end
    end.

(** The result of a call into the environment, awaited. *)
Definition await {A : Type} (o : Outcome A) : M A :=
  match o with
  | Returned a => mret a
  | Thrown e => throw e
  end.

(** Statements with no [else]. *)
Definition when (b : bool) (m : M unit) : M unit :=
  if b then m else mret tt.

(** [for (const x of xs) body(x)] and [xs.forEach(body)] *)
Fixpoint for_each {A : Type} (xs : list A) (body : A -> M unit) : M unit :=
  match xs with
  | [] => mret tt
  | x :: xs' => body x;; for_each xs' body
  end.

(** ** React state setters *)

Definition setStatus (v : string) : M unit := modify (set_status v).
Definition setIsSessionActive (v : bool) : M unit :=
  modify (set_isSessionActive v).
Definition setIsMicMuted (v : bool) : M unit := modify (set_isMicMuted v).
Definition setCurrentVolume (v : Q) : M unit := modify (set_currentVolume v).
Definition setMsgs (f : list Msg.t -> list Msg.t) : M unit :=
  modify (fun s => set_msgs (f (msgs s)) s).
Definition setConversation
    (f : list Conversation.t -> list Conversation.t) : M unit :=
  modify (fun s => set_conversation (f (conversation s)) s).

(** ** The side-channel *)

(** [dataChannel.send(JSON.stringify(payload))]: the browser throws unless
    the channel is open. *)
Definition send (dataChannel : RTCDataChannel) (payload : ClientEvent)
    : M unit :=
  if decide (readyState dataChannel = open)
  then emit (DataChannelSend payload)
  else throw InvalidStateError.

(** [dataChannelRef.current?.send(...)] *)
Definition send_if_present (payload : ClientEvent) : M unit :=
  dc ← gets dataChannelRef;
  match dc with
  | Some dataChannel => send dataChannel payload
  | None => mret tt
  end.

(** [mediaRecorder.requestData()] and [mediaRecorder.stop()]: the browser
    throws when the recorder is inactive. *)
Definition requestData (recorder : MediaRecorder.t) : M unit :=
  if bool_decide (MediaRecorder.state recorder = inactive)
  then throw InvalidStateError
  else emit RecorderRequestData.

Definition stop (recorder : MediaRecorder.t) : M unit :=
  if bool_decide (MediaRecorder.state recorder = inactive)
  then throw InvalidStateError
  else emit RecorderStop.

(** [registerFunction]: the last registration for a name wins.  The
    registry holds the properties the object has of its own; a name is
    taken not to be "__proto__", which the assignment would read as a
    change of the object's prototype. *)
Definition registerFunction (name : string) (fn : Fn) : M unit :=
  modify (fun s =>
            set_functionRegistry (<[name := fn]> (functionRegistry s)) s).

(** [functionRegistry.current[name]]: the registry is a plain object, so a
    name that is not registered is looked up in [Object.prototype]. *)
Definition registry_get (registry : gmap string Fn) (name : string)
    : option Fn :=
  match registry !! name with
  | Some fn => Some fn
  | None => Object_prototype name
  end.

(** [configureDataChannel], with [t("languagePrompt")] passed in. *)
Definition configureDataChannel (dataChannel : RTCDataChannel)
    (languagePrompt : string) : M unit :=
  send dataChannel session_update;;
  send dataChannel (conversation_item_create languagePrompt).

(** ** The ephemeral user entry *)

Definition getOrCreateEphemeralUserId (env : Env) : M string :=
  ephemeralId ← gets ephemeralUserMessageIdRef;
  if truthy ephemeralId then mret (default "" ephemeralId)
  else
    let ephemeralId := uuidv4 env in
    modify (set_ephemeralUserMessageIdRef (Some ephemeralId));;
    let newMessage :=
      Conversation.mk ephemeralId user "" (now env) false (Some "speaking") in
    setConversation (fun prev => prev ++ [newMessage]);;
    mret ephemeralId.

Definition updateEphemeralUserMessage (partial : Conversation.partial)
    : M unit :=
  ephemeralId ← gets ephemeralUserMessageIdRef;
  if truthy ephemeralId then
    setConversation
      (map (fun msg =>
              if decide (Conversation.id msg = default "" ephemeralId)
              then Conversation.merge msg partial
              else msg))
  else mret tt.

Definition clearEphemeralUserMessage : M unit :=
  modify (set_ephemeralUserMessageIdRef None).

(** ** The secondary transcription client *)

(** [data.text]: reading a property of [null] throws. *)
Definition data_text (data : TranscriptionData) : M (option Text) :=
  match data with
  | json_null => throw TypeError
  | json_value text => mret text
  end.

(** [transcribeAudioWithGroq]; [answer] is what [fetch] resolves or rejects
    with. *)
Definition transcribeAudioWithGroq (audioBlob : Blob.t)
    (answer : Outcome Response.t) : M Text :=
  try_catch
    (if (Blob.size audioBlob =? 0)%nat then mret (Str "No speech detected")
     else
       let filename :=
         if includes (Blob.type audioBlob) "mp4" then "audio.mp4"
         else if includes (Blob.type audioBlob) "mp3" then "audio.mp3"
         else if includes (Blob.type audioBlob) "wav" then "audio.wav"
         else "audio.webm" in
       emit (Fetch "/api/transcribe-audio" filename audioBlob);;
       response ← await answer;
       when (negb (Response.ok response))
         (errorText ← await (Response.text response);
          throw (Error ("Failed to transcribe audio: "
                        +:+ pretty (Response.status response)
                        +:+ " - " +:+ errorText)));;
       data ← await (Response.json response);
       text ← data_text data;
       if negb (truthy_text text) then mret (Str "No speech detected")
       else mret (default (Str "") text))
    (fun error => mret (Str "Transcription failed. Please try again.")).

(** ** The speech-stopped timer callback

    The callback is an async function: it runs up to the awaited
    transcription, and goes on when the transcript is there. *)

(** Up to [await transcribeAudioWithGroq(audioBlob)]: the consolidated
    audio, or nothing when no chunk was buffered. *)
Definition consolidateAudio : M (option Blob.t) :=
  chunks ← gets audioChunksRef;
  if (0 <? length chunks)%nat then
    recorder ← gets mediaRecorderRef;
    let mimeType :=
      match recorder with
      | Some r =>
          if String.eqb (MediaRecorder.mimeType r) "" then "audio/webm"
          else MediaRecorder.mimeType r
      | None => "audio/webm"
      end in
    let audioBlob :=
      if String.eqb mimeType "audio/webm"
      then Blob.new chunks "audio/webm;codecs=opus"
      else Blob.new chunks mimeType in
    mret (Some audioBlob)
  else mret None.

(** From the transcript on. *)
Definition afterTranscription (transcript : Text) : M unit :=
  updateEphemeralUserMessage
    (Conversation.mkPartial (Some transcript) (Some true) (Some "final"));;
  clearEphemeralUserMessage;;
  modify (set_audioChunksRef []);;
  dc ← gets dataChannelRef;
  match dc with
  | Some dataChannel =>
      if decide (readyState dataChannel = open) then
        send dataChannel (conversation_item_create transcript);;
        send dataChannel response_create
      else mret tt
  | None => mret tt
  end.

(** The whole callback, when nothing else runs during the await. *)
Definition onSpeechStoppedTimeout (answer : Outcome Response.t) : M unit :=
  audio ← consolidateAudio;
  match audio with
  | Some audioBlob =>
      transcript ← transcribeAudioWithGroq audioBlob answer;
      afterTranscription transcript
  | None => mret tt
  end.

(** ** The side-channel message handler *)

(** The statements after [await fn(args)] in the function-call case. *)
Definition replyToFunctionCall (msg : Msg.t) (result : JSValue) : M unit :=
  send_if_present
    (function_call_output (Msg.call_id msg) (JSON_stringify result));;
  send_if_present response_create.

(** The updater of the transcript-delta case: extend the assistant entry
    being streamed, or start one. *)
Definition appendDelta (newMessage : Conversation.t) (delta : string)
    (prev : list Conversation.t) : list Conversation.t :=
  match last prev with
  | Some lastMsg =>
      if bool_decide (Conversation.role lastMsg = assistant)
         && negb (Conversation.isFinal lastMsg)
      then
        <[pred (length prev) :=
            Conversation.mk (Conversation.id lastMsg)
              (Conversation.role lastMsg)
              (Text_append (Conversation.text lastMsg) delta)
              (Conversation.timestamp lastMsg)
              (Conversation.isFinal lastMsg)
              (Conversation.status lastMsg)]> prev
      else prev ++ [newMessage]
  | None => prev ++ [newMessage]
  end.

(** The updater of the transcript-done case: [isFinal = true] on the last
    entry, nothing on an empty log. *)
Definition markLastFinal (prev : list Conversation.t)
    : list Conversation.t :=
  match last prev with
  | Some lastMsg =>
      <[pred (length prev) :=
          Conversation.mk (Conversation.id lastMsg)
            (Conversation.role lastMsg) (Conversation.text lastMsg)
            (Conversation.timestamp lastMsg) true
            (Conversation.status lastMsg)]> prev
  | None => prev
  end.

(** The [switch (msg.type)]. *)
Definition dispatchMessage (env : Env) (msg : Msg.t) : M unit :=
  let type := Msg.type msg in
  if String.eqb type "input_audio_buffer.speech_started" then
    getOrCreateEphemeralUserId env;;
    updateEphemeralUserMessage
      (Conversation.mkPartial (Some (Str "Listening...")) None
         (Some "speaking"));;
    modify (set_audioChunksRef [])
  else if String.eqb type "input_audio_buffer.speech_stopped" then
    updateEphemeralUserMessage
      (Conversation.mkPartial (Some (Str "Processing speech...")) None
         (Some "processing"));;
    recorder ← gets mediaRecorderRef;
    match recorder with
    | Some r =>
        if decide (MediaRecorder.state r = recording) then
          requestData r;;
          emit (SetTimeout speechStoppedTimeout 300)
        else mret tt
    | None => mret tt
    end
  else if String.eqb type "input_audio_buffer.committed" then mret tt
  else if String.eqb type "conversation.item.input_audio_transcription"
  then mret tt
  else if String.eqb type
            "conversation.item.input_audio_transcription.completed"
  then mret tt
  else if String.eqb type "response.audio_transcript.delta" then
    let newMessage :=
      Conversation.mk (uuidv4 env) assistant (Msg.delta msg) (now env)
        false None in
    setConversation (appendDelta newMessage (Msg.delta msg))
  else if String.eqb type "response.audio_transcript.done" then
    setConversation markLastFinal
  else if String.eqb type "response.function_call_arguments.done" then
    fn ← gets (fun s => registry_get (functionRegistry s) (Msg.name msg));
    match fn with
    | Some fn =>
        args ← match JSON_parse (Msg.arguments msg) with
               | Some args => mret args
               | None => throw SyntaxError
               end;
        result ← await (fn args);
        replyToFunctionCall msg result
    | None => mret tt
    end
  else mret tt.

(** [handleDataChannelMessage]: returns the message, or [undefined] (here
    [None]) when the body threw. *)
Definition handleDataChannelMessage (env : Env) (event : MessageEvent)
    : M (option Msg.t) :=
  try_catch
    (msg ← match JSON_parse_message (data event) with
           | Some msg => mret msg
           | None => throw SyntaxError
           end;
     dispatchMessage env msg;;
     setMsgs (fun prevMsgs => prevMsgs ++ [msg]);;
     mret (Some msg))
    (fun error => mret None).

(** ** Teardown *)

Definition stopSession : M unit :=
  dc ← gets dataChannelRef;
  match dc with
  | Some _ => emit DataChannelClose;; modify (set_dataChannelRef None)
  | None => mret tt
  end;;
  pc ← gets peerConnectionRef;
  match pc with
  | Some _ => emit PeerConnectionClose;; modify (set_peerConnectionRef None)
  | None => mret tt
  end;;
  ctx ← gets audioContextRef;
  match ctx with
  | Some _ => emit AudioContextClose;; modify (set_audioContextRef None)
  | None => mret tt
  end;;
  stream ← gets audioStreamRef;
  match stream with
  | Some tracks =>
      for_each tracks (fun track => emit TrackStop);;
      modify (set_audioStreamRef None)
  | None => mret tt
  end;;
  indicator ← gets audioIndicatorRef;
  match indicator with
  | Some _ => modify (set_audioIndicatorRef (Some {| active := false |}))
  | None => mret tt
  end;;
  interval ← gets volumeIntervalRef;
  when (truthy_handle interval)
    (emit (ClearInterval (default 0%Z interval));;
     modify (set_volumeIntervalRef None));;
  timeout ← gets timeoutRef;
  when (truthy_handle timeout)
    (emit (ClearTimeout (default 0%Z timeout));;
     modify (set_timeoutRef None));;
  recorder ← gets mediaRecorderRef;
  match recorder with
  | Some r =>
      when (negb (bool_decide (MediaRecorder.state r = inactive)))
        (stop r);;
      modify (set_mediaRecorderRef None)
  | None => mret tt
  end;;
  modify (set_analyserRef None);;
  modify (set_audioChunksRef []);;
  modify (set_ephemeralUserMessageIdRef None);;
  setCurrentVolume 0%Q;;
  setIsSessionActive false;;
  setStatus "Session stopped";;
  setMsgs (fun _ => []);;
  setConversation (fun _ => []).

(** ** Session start *)

(** The candidate encodings, in order of preference. *)
Definition mimeTypeOptions : list string :=
  ["audio/mp3"; "audio/mp4"; "audio/wav"; "audio/webm;codecs=opus";
   "audio/webm"].

Definition selectMimeType (supported : string -> bool) : string :=
  default "audio/webm" (head (filter (fun m => supported m = true)
                                mimeTypeOptions)).

Definition startSession (env : StartEnv) : M unit :=
  try_catch
    (setStatus "Requesting microphone access...";;
     stream ← await (getUserMedia env);
     modify (set_audioStreamRef (Some stream));;
     modify (set_audioContextRef (Some audioContext));;
     setStatus "Fetching ephemeral token...";;
     ephemeralToken ← await (getEphemeralToken env);
     setStatus "Establishing connection...";;
     modify (set_peerConnectionRef (Some peerConnection));;
     modify (set_dataChannelRef (Some {| readyState := connecting |}));;
     let selectedMimeType := selectMimeType (isTypeSupported env) in
     when (negb (isTypeSupported env selectedMimeType))
       (throw (Error "NotSupportedError"));;
     modify (set_mediaRecorderRef
               (Some (MediaRecorder.mk recording selectedMimeType)));;
     emit (RecorderStart 500);;
     match stream with
     | _ :: _ => mret tt
     | [] => throw TypeError
     end;;
     await (negotiation env);;
     setIsSessionActive true;;
     setStatus "Session established successfully!")
    (fun err =>
       setStatus ("Error: " +:+ Exn_toString err);;
       stopSession).

(** ** UI operations *)

Definition sendTextMessage (env : Env) (text : string) : M unit :=
  dc ← gets dataChannelRef;
  match dc with
  | Some dataChannel =>
      if decide (readyState dataChannel = open) then
        let messageId := uuidv4 env in
        let newMessage :=
          Conversation.mk messageId user text (now env) true (Some "final") in
        setConversation (fun prev => prev ++ [newMessage]);;
        send dataChannel (conversation_item_create text);;
        send dataChannel response_create
      else mret tt
  | None => mret tt
  end.

Definition toggleMic : M unit :=
  stream ← gets audioStreamRef;
  match stream with
  | Some (audioTrack :: tracks) =>
      let toggled := {| enabled := negb (enabled audioTrack) |} in
      modify (set_audioStreamRef (Some (toggled :: tracks)));;
      setIsMicMuted (negb (enabled toggled))
  | _ => mret tt
  end.

(** ** Callbacks installed by [startSession] *)

(** [mediaRecorder.ondataavailable] *)
Definition ondataavailable (chunk : Blob.t) : M unit :=
  when (0 <? Blob.size chunk)%nat
    (modify (fun s => set_audioChunksRef (audioChunksRef s ++ [chunk]) s)).

(** [pc.ontrack]: the analyser and the sampling timer, whose handle the
    browser chooses. *)
Definition ontrack (handle : Z) : M unit :=
  modify (set_analyserRef (Some analyserNode));;
  modify (set_volumeIntervalRef (Some handle)).

(** One tick of the sampling timer: [setCurrentVolume(getVolume())], with
    the measured level passed in. *)
Definition sampleVolume (level : Q) : M unit :=
  analyser ← gets analyserRef;
  setCurrentVolume (match analyser with Some _ => level | None => 0%Q end).

(** The browser moves the channel held in [dataChannelRef] to another
    state, or the recorder held in [mediaRecorderRef]. *)
Definition channelStateChange (st : RTCDataChannelState) : M unit :=
  dc ← gets dataChannelRef;
  match dc with
  | Some _ => modify (set_dataChannelRef (Some {| readyState := st |}))
  | None => mret tt
  end.

Definition recorderStateChange (st : RecordingState) : M unit :=
  recorder ← gets mediaRecorderRef;
  match recorder with
  | Some r =>
      modify (set_mediaRecorderRef
                (Some (MediaRecorder.mk st (MediaRecorder.mimeType r))))
  | None => mret tt
  end.

(** [dataChannel.onopen] *)
Definition onopen (languagePrompt : string) : M unit :=
  dc ← gets dataChannelRef;
  match dc with
  | Some _ =>
      channelStateChange open;;
      configureDataChannel {| readyState := open |} languagePrompt
  | None => mret tt
  end.

(** The consumer attaches the indicator element to [audioIndicatorRef]. *)
Definition attachIndicator (el : HTMLDivElement) : M unit :=
  modify (set_audioIndicatorRef (Some el)).

(** The function-call case of the handler from [await fn(args)] on, when
    other handlers ran during the await. *)
Definition resumeFunctionCall (msg : Msg.t) (result : JSValue)
    : M (option Msg.t) :=
  try_catch
    (replyToFunctionCall msg result;;
     setMsgs (fun prevMsgs => prevMsgs ++ [msg]);;
     mret (Some msg))
    (fun error => mret None).

(** ** Runs of the hook

    Handlers run one at a time, each to its end or to its next await. *)

Inductive Op :=
| StartSession (env : StartEnv)
| StopSession
| ToggleMic
| RegisterFunction (name : string) (fn : Fn)
| SendTextMessage (env : Env) (text : string)
| Message (env : Env) (event : MessageEvent)
| ResumeFunctionCall (msg : Msg.t) (result : JSValue)
| SpeechStoppedTimeout (answer : Outcome Response.t)
| ConsolidateAudio
| AfterTranscription (transcript : Text)
| DataAvailable (chunk : Blob.t)
| Track (handle : Z)
| SampleVolume (level : Q)
| ChannelOpen (languagePrompt : string)
| ChannelStateChange (st : RTCDataChannelState)
| RecorderStateChange (st : RecordingState)
| AttachIndicator (el : HTMLDivElement).

Definition ignore {A : Type} (m : M A) : M unit := m;; mret tt.

Definition exec (op : Op) : M unit :=
  match op with
  | StartSession env => startSession env
  | StopSession => stopSession
  | ToggleMic => toggleMic
  | RegisterFunction name fn => registerFunction name fn
  | SendTextMessage env text => sendTextMessage env text
  | Message env event => ignore (handleDataChannelMessage env event)
  | ResumeFunctionCall msg result => ignore (resumeFunctionCall msg result)
  | SpeechStoppedTimeout answer => onSpeechStoppedTimeout answer
  | ConsolidateAudio => ignore consolidateAudio
  | AfterTranscription transcript => afterTranscription transcript
  | DataAvailable chunk => ondataavailable chunk
  | Track handle => ontrack handle
  | SampleVolume level => sampleVolume level
  | ChannelOpen languagePrompt => onopen languagePrompt
  | ChannelStateChange st => channelStateChange st
  | RecorderStateChange st => recorderStateChange st
  | AttachIndicator el => attachIndicator el
  end.

(** The state after the operations, first to last. *)
Definition run (ops : list Op) (s : Session) : Session :=
  foldl (fun s op => final (exec op s)) s ops.

Inductive reachable : Session -> Prop :=
| reachable_initial : reachable initial
| reachable_step s op : reachable s -> reachable (final (exec op s)).

End Hook.

Arguments mkResult {_ A} _ _ _.
Arguments outcome {_ A} _.
Arguments final {_ A} _.
Arguments effects {_ A} _.

(** ** Vocabulary of the properties *)

(** Every assistant entry that is not the tail is final. *)
Definition non_tail_assistants_final (log : list Conversation.t) : Prop :=
  forall i e,
    log !! i = Some e -> S i < length log ->
    Conversation.role e = assistant -> Conversation.isFinal e = true.

(** Every assistant entry that another assistant entry follows is final. *)
Definition assistant_runs_final (log : list Conversation.t) : Prop :=
  forall i a b,
    log !! i = Some a -> log !! S i = Some b ->
    Conversation.role a = assistant -> Conversation.role b = assistant ->
    Conversation.isFinal a = true.

(** The placeholder or the text it had: what a speech-stopped event may
    leave in an entry, whose finality it keeps. *)
Definition keeps_finality (before after : Conversation.t) : Prop :=
  Conversation.isFinal after = Conversation.isFinal before /\
  (Conversation.text after = Conversation.text before \/
   Conversation.text after = "Processing speech...").

Section Vocabulary.

Context `{JSON}.

(** [m] run from [s] returns [a] and leaves [s']. *)
Definition returns {A : Type} (m : M A) (s : Session) (a : A)
    (s' : Session) : Prop :=
  outcome (m s) = Returned a /\ final (m s) = s'.

(** [m] keeps [I], whether it returns or throws. *)
Definition preserves (I : Session -> Prop) {A : Type} (m : M A) : Prop :=
  forall s, I s -> I (final (m s)).

(** The session state has its initial values, in the fields a teardown is
    said to reset. *)
Definition reset_to_initial (s : Session) : Prop :=
  status s = status initial /\
  isSessionActive s = false /\
  isMicMuted s = false /\
  currentVolume s = 0%Q /\
  conversation s = [] /\
  msgs s = [] /\
  ephemeralUserMessageIdRef s = None /\
  audioChunksRef s = [].

(** The invariant of the runs of assistant entries, on a state. *)
Definition runs_final (s : Session) : Prop :=
  assistant_runs_final (conversation s).

(** A run that sent a function-call output on the side-channel. *)
Definition sends_function_call_output {A : Type} (r : Result A) : Prop :=
  exists call_id output,
    DataChannelSend (function_call_output call_id output) ∈ effects r.

(** The state a teardown leaves, field by field. *)
Definition stopped (s : Session) : Session :=
  {| status := "Session stopped";
     isSessionActive := false;
     isMicMuted := isMicMuted s;
     audioIndicatorRef :=
       match audioIndicatorRef s with
       | Some _ => Some {| active := false |}
       | None => None
       end;
     audioContextRef := None;
     audioStreamRef := None;
     peerConnectionRef := None;
     dataChannelRef := None;
     mediaRecorderRef := None;
     msgs := [];
     conversation := [];
     functionRegistry := functionRegistry s;
     currentVolume := 0%Q;
     analyserRef := None;
     volumeIntervalRef :=
       if truthy_handle (volumeIntervalRef s) then None
       else volumeIntervalRef s;
     timeoutRef :=
       if truthy_handle (timeoutRef s) then None else timeoutRef s;
     ephemeralUserMessageIdRef := None;
     audioChunksRef := [] |}.

End Vocabulary.

(** ** A stand-in codec for the examples

    Values are kept as their JSON text, so [JSON.stringify] is the identity
    and [JSON.parse] fails on the empty text only.  A side-channel payload
    is written as the five fields of its message (type, delta, name,
    arguments, call_id), separated by bars. *)

Fixpoint bar_fields (s : string) : list string :=
  match s with
  | EmptyString => [EmptyString]
  | String c s' =>
      if Ascii.eqb c "|"%char then EmptyString :: bar_fields s'
      else match bar_fields s' with
           | f :: fs => String c f :: fs
           | [] => [String c EmptyString]
           end
  end.

Definition bar_message (payload : string) : option Msg.t :=
  match bar_fields payload with
  | [type; delta; name; arguments; call_id] =>
      Some (Msg.mk type delta name arguments call_id)
  | _ => None
  end.

(** The JSON text of a string (of one that needs no escapes). *)
Definition quoted (s : string) : string :=
  String (ascii_of_nat 34) (s +:+ String (ascii_of_nat 34) EmptyString).

(** The JSON text of an object or of an array. *)
Definition is_object (v : string) : bool :=
  match v with
  | String c _ => Ascii.eqb c "{"%char || Ascii.eqb c "["%char
  | EmptyString => false
  end.

(** [Object.prototype] as the ECMAScript standard has it, on values kept
    as their JSON text.  [constructor] is [Object]: it gives back an
    object as it is, wraps a primitive in an object that is written as
    the primitive is, and makes an empty object of [null].  [toString],
    called with no [this], answers "[object Undefined]".  [isPrototypeOf]
    answers [false] for a value that is not an object.  The other members
    need a [this] to work on, and [__proto__] is no function: a call of
    them throws a [TypeError]. *)
Definition example_Object_prototype (name : string)
    : option (string -> Outcome string) :=
  if String.eqb name "constructor" then
    Some (fun v => Returned (if String.eqb v "null" then "{}" else v))
  else if String.eqb name "toString" then
    Some (fun _ => Returned (quoted "[object Undefined]"))
  else if String.eqb name "isPrototypeOf" then
    Some (fun v => if is_object v then Thrown TypeError
                   else Returned "false")
  else if bool_decide
            (name ∈ ["__proto__"; "hasOwnProperty"; "propertyIsEnumerable";
                     "toLocaleString"; "valueOf"; "__defineGetter__";
                     "__defineSetter__"; "__lookupGetter__";
                     "__lookupSetter__"])
  then Some (fun _ => Thrown TypeError)
  else None.

Definition example_json : JSON :=
  {| JSValue := string;
     JSON_parse := fun text => if String.eqb text "" then None else Some text;
     JSON_stringify := fun v => v;
     JSON_parse_message := bar_message;
     Object_prototype := example_Object_prototype |}.

Definition example_env : Env := {| uuidv4 := "uuid-1"; now := "t1" |}.

(** A start that meets no failure: one audio track, WebM supported. *)
Definition example_start : StartEnv :=
  {| getUserMedia := Returned [{| enabled := true |}];
     getEphemeralToken := Returned "ek_1";
     isTypeSupported := fun m => String.eqb m "audio/webm";
     negotiation := Returned tt |}.

Definition delta_event (delta : string) : MessageEvent :=
  {| data := "response.audio_transcript.delta|" +:+ delta +:+ "|||" |}.

Definition done_event : MessageEvent :=
  {| data := "response.audio_transcript.done||||" |}.

Definition speech_stopped_event : MessageEvent :=
  {| data := "input_audio_buffer.speech_stopped||||" |}.

(** A call of the tool [name] with arguments [{}] and call id [call_1]. *)
Definition function_call_event (name : string) : MessageEvent :=
  {| data := "response.function_call_arguments.done||" +:+ name
             +:+ "|{}|call_1" |}.

(** A tool that throws whatever it is called with. *)
Definition throwing_tool : @Fn example_json :=
  fun _ => Thrown (Error "tool failed").

(** A session is up and its channel is open. *)
Definition established : @Session example_json :=
  run [StartSession example_start; ChannelOpen "Speak English"] initial.

(** The messages of those payloads. *)
Definition delta_msg (delta : string) : Msg.t :=
  Msg.mk "response.audio_transcript.delta" delta "" "" "".

Definition done_msg : Msg.t :=
  Msg.mk "response.audio_transcript.done" "" "" "" "".

Definition speech_stopped_msg : Msg.t :=
  Msg.mk "input_audio_buffer.speech_stopped" "" "" "" "".

Definition function_call_msg (name : string) : Msg.t :=
  Msg.mk "response.function_call_arguments.done" "" name "{}" "call_1".

(** The user muted the microphone of an established session. *)
Definition muted : @Session example_json :=
  run [StartSession example_start; ToggleMic] initial.

(** The assistant has begun to answer ("Hel") when the user sends "hi". *)
Definition interrupted : @Session example_json :=
  run [StartSession example_start;
       ChannelOpen "Speak English";
       Message {| uuidv4 := "uuid-1"; now := "t1" |} (delta_event "Hel");
       SendTextMessage {| uuidv4 := "uuid-2"; now := "t2" |} "hi"]
    initial.

(** The tool [getCurrentTime] is registered, and throws when called. *)
Definition with_throwing_tool : @Session example_json :=
  run [RegisterFunction "getCurrentTime" throwing_tool] established.

(** ** The start/stop button *)

Section Controls.

Context `{JSON}.

(** [handleStartStopClick]: stop an active session, start one otherwise. *)
Definition handleStartStopClick (env : StartEnv) : M unit :=
  sessionActive ← gets isSessionActive;
  if (sessionActive : bool) then stopSession else startSession env.

End Controls.

(** ** The transcription route's temporary file *)

(** The extension the route gives the uploaded audio, by its MIME type. *)
Definition fileExtension (type : string) : string :=
  if includes type "webm" then "webm"
  else if includes type "mp3" then "mp3"
  else if includes type "wav" then "wav"
  else "m4a".

(** ** Vocabulary of the further properties *)

(** An entry keeps its identity, and its finality once it has it. *)
Definition same_entry (before after : Conversation.t) : Prop :=
  Conversation.id after = Conversation.id before /\
  Conversation.role after = Conversation.role before /\
  Conversation.timestamp after = Conversation.timestamp before /\
  (Conversation.isFinal before = true -> Conversation.isFinal after = true).

(** Every entry of [before] is still there in [after], at its place. *)
Definition log_extends (before after : list Conversation.t) : Prop :=
  forall i e,
    before !! i = Some e ->
    exists e', after !! i = Some e' /\ same_entry e e'.

Definition is_fetch (e : Effect) : bool :=
  match e with
  | Fetch _ _ _ => true
  | _ => false
  end.

(** The name under which the client uploads audio of a MIME type. *)
Definition upload_filename (type : string) : string :=
  if includes type "mp4" then "audio.mp4"
  else if includes type "mp3" then "audio.mp3"
  else if includes type "wav" then "audio.wav"
  else "audio.webm".

(** A start meets no failure: the microphone gives a stream with a track,
    the token arrives, the recorder accepts the chosen encoding and the
    negotiation goes through. *)
Definition start_succeeds (env : StartEnv) : bool :=
  match getUserMedia env, getEphemeralToken env, negotiation env with
  | Returned (_ :: _), Returned _, Returned _ =>
      isTypeSupported env (selectMimeType (isTypeSupported env))
  | _, _, _ => false
  end.

(** The text the transcription client returns on a non-empty payload, by
    what the request met. *)
Definition transcription_result (answer : Outcome Response.t) : Text :=
  match answer with
  | Returned response =>
      if Response.ok response then
        match Response.json response with
        | Returned (json_value text) =>
            if truthy_text text then default (Str "") text
            else Str "No speech detected"
        | _ => Str "Transcription failed. Please try again."
        end
      else Str "Transcription failed. Please try again."
  | Thrown _ => Str "Transcription failed. Please try again."
  end.

(** The MIME type of the consolidated audio, by the recorder's. *)
Definition consolidated_type (recorder : option MediaRecorder.t) : string :=
  match recorder with
  | Some r =>
      if String.eqb (MediaRecorder.mimeType r) "" then "audio/webm;codecs=opus"
      else if String.eqb (MediaRecorder.mimeType r) "audio/webm"
           then "audio/webm;codecs=opus"
           else MediaRecorder.mimeType r
  | None => "audio/webm;codecs=opus"
  end.

Section FurtherVocabulary.

Context `{JSON}.

(** The ephemeral-id reference, when set, names a user entry of the log. *)
Definition ephemeral_entry_present (s : Session) : Prop :=
  forall i,
    ephemeralUserMessageIdRef s = Some i ->
    exists e,
      e ∈ conversation s /\
      Conversation.id e = i /\ Conversation.role e = user.

(** The handles of a running session are all there. *)
Definition handles_present (s : Session) : Prop :=
  is_Some (audioStreamRef s) /\
  is_Some (audioContextRef s) /\
  is_Some (peerConnectionRef s) /\
  is_Some (dataChannelRef s) /\
  is_Some (mediaRecorderRef s).

(** No handle is left. *)
Definition handles_released (s : Session) : Prop :=
  audioStreamRef s = None /\
  audioContextRef s = None /\
  peerConnectionRef s = None /\
  dataChannelRef s = None /\
  mediaRecorderRef s = None /\
  analyserRef s = None.

(** The calls a teardown makes, in order. *)
Definition release_calls (s : Session) : list Effect :=
  match dataChannelRef s with Some _ => [DataChannelClose] | None => [] end
  ++ match peerConnectionRef s with
     | Some _ => [PeerConnectionClose]
     | None => []
     end
  ++ match audioContextRef s with
     | Some _ => [AudioContextClose]
     | None => []
     end
  ++ replicate (length (default [] (audioStreamRef s))) TrackStop
  ++ (if truthy_handle (volumeIntervalRef s)
      then [ClearInterval (default 0%Z (volumeIntervalRef s))] else [])
  ++ (if truthy_handle (timeoutRef s)
      then [ClearTimeout (default 0%Z (timeoutRef s))] else [])
  ++ match mediaRecorderRef s with
     | Some r =>
         if bool_decide (MediaRecorder.state r = inactive) then []
         else [RecorderStop]
     | None => []
     end.

(** What goes to the remote endpoint once a transcript is there: the text
    and the request for a response, on an open channel only. *)
Definition transcript_sends (s : Session) (transcript : Text)
    : list Effect :=
  match dataChannelRef s with
  | Some dataChannel =>
      if decide (readyState dataChannel = open)
      then [DataChannelSend (conversation_item_create transcript);
            DataChannelSend response_create]
      else []
  | None => []
  end.

(** The log once a transcript is written into the ephemeral entry. *)
Definition transcript_written (s : Session) (transcript : Text)
    : list Conversation.t :=
  if truthy (ephemeralUserMessageIdRef s) then
    map (fun msg =>
           if decide (Conversation.id msg
                      = default "" (ephemeralUserMessageIdRef s))
           then Conversation.merge msg
                  (Conversation.mkPartial (Some transcript) (Some true)
                     (Some "final"))
           else msg)
      (conversation s)
  else conversation s.

End FurtherVocabulary.

(** ** More example runs *)

Definition speech_started_event : MessageEvent :=
  {| data := "input_audio_buffer.speech_started||||" |}.

Definition speech_started_msg : Msg.t :=
  Msg.mk "input_audio_buffer.speech_started" "" "" "" "".

Definition committed_event : MessageEvent :=
  {| data := "input_audio_buffer.committed||||" |}.

Definition committed_msg : Msg.t :=
  Msg.mk "input_audio_buffer.committed" "" "" "" "".

(** A payload that is not a message. *)
Definition garbled_event : MessageEvent := {| data := "garbled" |}.

(** A tool that returns the time. *)
Definition clock_tool : @Fn example_json := fun _ => Returned "12:00".

Definition with_clock_tool : @Session example_json :=
  run [RegisterFunction "getCurrentTime" clock_tool] established.

(** A start whose microphone request is denied. *)
Definition denied_start : StartEnv :=
  {| getUserMedia := Thrown (Rejected "NotAllowedError");
     getEphemeralToken := Returned "ek_1";
     isTypeSupported := fun m => String.eqb m "audio/webm";
     negotiation := Returned tt |}.

Definition chunk_a : Blob.t := Blob.mk [Byte.x61] "audio/webm".
Definition chunk_b : Blob.t := Blob.mk [Byte.x62; Byte.x63] "audio/webm".
Definition empty_chunk : Blob.t := Blob.mk [] "audio/webm".

(** The user has begun to speak and two chunks are buffered. *)
Definition listening : @Session example_json :=
  run [StartSession example_start;
       ChannelOpen "Speak English";
       Message example_env speech_started_event;
       DataAvailable chunk_a;
       DataAvailable chunk_b]
    initial.

(** The transcription route answers with a text. *)
Definition heard (text : Text) : Outcome Response.t :=
  Returned (Response.mk 200 (Returned "")
              (Returned (json_value (Some text)))).

(** * Properties *)

Section Properties.

Context `{JSON}.

(** ** Running computations *)

Lemma returns_bind {A B : Type} (m : M A) (f : A -> M B) s a s1 b s2 :
  returns m s a s1 -> returns (f a) s1 b s2 -> returns (m ≫= f) s b s2.
Proof.
  unfold returns, mbind, M_bind. intros [Ho Hf] [Ho' Hf'].
  destruct (m s) as [o s' e]; cbn in *; subst.
  destruct (f a s1) as [o' s'' e']; cbn in *; subst. auto.
Qed.

Lemma returns_gets {A B : Type} (g : Session -> A) (f : A -> M B) s b s2 :
  returns (f (g s)) s b s2 -> returns (gets g ≫= f) s b s2.
Proof.
  unfold returns, mbind, M_bind, gets.
  destruct (f (g s) s) as [o s' e]. auto.
Qed.

Lemma returns_modify g s : returns (modify g) s tt (g s).
Proof. split; reflexivity. Qed.

Lemma for_each_emit {A : Type} (xs : list A) (e : Effect) (s : Session) :
  for_each xs (fun _ => emit e) s
  = mkResult (Returned tt) s (replicate (length xs) e).
Proof.
  induction xs as [|x xs IH]; [reflexivity|].
  cbn. unfold mbind, M_bind. cbn. rewrite IH. reflexivity.
Qed.

(** One guarded release of [stopSession]: whichever branch runs, it
    returns and leaves [g s]. *)
Ltac release g :=
  match goal with
  | |- returns (gets _ ≫= _) ?s _ _ =>
      apply returns_gets; cbv beta;
      eapply (returns_bind _ _ s tt (g s));
      [ destruct s; unfold when, stop; split; cbn; repeat case_match;
        simplify_eq/=; unfold mbind, M_bind; rewrite ?for_each_emit;
        reflexivity | ]
  end.

(** ** Teardown *)

Lemma stopSession_returns s : returns stopSession s tt (stopped s).
Proof.
  unfold stopSession.
  release (set_dataChannelRef None).
  release (set_peerConnectionRef None).
  release (set_audioContextRef None).
  release (set_audioStreamRef None).
  release (fun s => set_audioIndicatorRef
                      (match audioIndicatorRef s with
                       | Some _ => Some {| active := false |}
                       | None => None
                       end) s).
  release (fun s => set_volumeIntervalRef
                      (if truthy_handle (volumeIntervalRef s) then None
                       else volumeIntervalRef s) s).
  release (fun s => set_timeoutRef
                      (if truthy_handle (timeoutRef s) then None
                       else timeoutRef s) s).
  release (set_mediaRecorderRef None).
  do 7 (eapply returns_bind; [apply returns_modify|]).
  destruct s; split; reflexivity.
Qed.

Lemma stopped_stopped s : stopped (stopped s) = stopped s.
Proof.
  destruct s as [? ? ? [] ? ? ? ? ? ? ? ? ? ? [[]|] [[]|] ? ?]; reflexivity.
Qed.

(** On a state a teardown left, a teardown calls nothing. *)
Lemma stopSession_stopped_effects s : effects (stopSession (stopped s)) = [].
Proof.
  destruct s as [? ? ? [] ? ? ? ? ? ? ? ? ? ? [[]|] [[]|] ? ?]; reflexivity.
Qed.

(** C1, as amended: [stopSession] returns, and it leaves the status text
    "Session stopped", the active-session flag false, the volume zero, the
    conversation log and the raw message log empty, the ephemeral-id
    reference null and the audio-chunk buffer empty, whatever the state it
    is called in. *)
Theorem stopSession_resets (s : Session) :
  outcome (stopSession s) = Returned tt /\
  status (final (stopSession s)) = "Session stopped" /\
  isSessionActive (final (stopSession s)) = false /\
  currentVolume (final (stopSession s)) = 0%Q /\
  conversation (final (stopSession s)) = [] /\
  msgs (final (stopSession s)) = [] /\
  ephemeralUserMessageIdRef (final (stopSession s)) = None /\
  audioChunksRef (final (stopSession s)) = [].
Proof.
  destruct (stopSession_returns s) as [Ho Hf].
  rewrite Hf. repeat split; try reflexivity. exact Ho.
Qed.

(** C2: [stopSession] is total and idempotent.  From every state it
    returns; called again at once it returns again, leaves the state the
    first call left and calls nothing on any resource.  On the state of a
    hook that never started a session it returns and calls nothing. *)
Theorem stopSession_idempotent (s : Session) :
  outcome (stopSession s) = Returned tt /\
  outcome (stopSession (final (stopSession s))) = Returned tt /\
  final (stopSession (final (stopSession s))) = final (stopSession s) /\
  effects (stopSession (final (stopSession s))) = [] /\
  outcome (stopSession initial) = Returned tt /\
  effects (stopSession initial) = [].
Proof.
  destruct (stopSession_returns s) as [Ho Hf].
  rewrite Hf.
  destruct (stopSession_returns (stopped s)) as [Ho' Hf'].
  rewrite Hf', stopped_stopped, stopSession_stopped_effects.
  repeat split; try assumption; reflexivity.
Qed.

(** C10: with the data channel absent, or present and not open,
    [sendTextMessage] returns and does nothing: the state (the conversation
    log with it) is unchanged and nothing is sent. *)
Theorem sendTextMessage_not_ready (env : Env) (text : string) (s : Session) :
  (dataChannelRef s = None \/
   exists dataChannel,
     dataChannelRef s = Some dataChannel /\ readyState dataChannel <> open) ->
  sendTextMessage env text s = mkResult (Returned tt) s [].
Proof.
  intros [Hdc | (dataChannel & Hdc & Hstate)];
    unfold sendTextMessage, mbind, M_bind, gets; cbn; rewrite Hdc.
  - reflexivity.
  - destruct (decide (readyState dataChannel = open)); [contradiction|].
    reflexivity.
Qed.


(** ** The secondary transcription client *)

(** The transcript [transcribeAudioWithGroq] returns on a non-empty
    payload, by what the request met. *)
Lemma transcribeAudioWithGroq_requested
    (audioBlob : Blob.t) (answer : Outcome Response.t) (s : Session) :
  Blob.size audioBlob <> 0 ->
  returns (transcribeAudioWithGroq audioBlob answer) s
    (match answer with
     | Returned response =>
         if Response.ok response then
           match Response.json response with
           | Returned (json_value text) =>
               if truthy_text text then default (Str "") text
               else Str "No speech detected"
           | _ => Str "Transcription failed. Please try again."
           end
         else Str "Transcription failed. Please try again."
     | Thrown _ => Str "Transcription failed. Please try again."
     end) s.
Proof.
  intros Hsize. apply Nat.eqb_neq in Hsize.
  unfold returns, transcribeAudioWithGroq. rewrite Hsize.
  unfold try_catch, mbind, M_bind, emit, when, await, data_text, throw,
    mret, M_ret.
  cbv zeta.
  destruct answer as [response | e]; cbn [outcome final effects];
    [|split; reflexivity].
  destruct (Response.ok response); cbn [outcome final effects negb].
  - destruct (Response.json response) as [[| text] | e];
      cbn [outcome final effects]; try (split; reflexivity).
    destruct (truthy_text text); split; reflexivity.
  - destruct (Response.text response); split; reflexivity.
Qed.

Lemma transcribeAudioWithGroq_empty
    (audioBlob : Blob.t) (answer : Outcome Response.t) (s : Session) :
  Blob.size audioBlob = 0 ->
  transcribeAudioWithGroq audioBlob answer s
  = mkResult (Returned (Str "No speech detected")) s [].
Proof.
  intros Hsize. apply Nat.eqb_eq in Hsize.
  unfold transcribeAudioWithGroq. rewrite Hsize. reflexivity.
Qed.

(** The transcription client returns, and the session state is as it
    was. *)
Lemma transcribeAudioWithGroq_returns
    (audioBlob : Blob.t) (answer : Outcome Response.t) (s : Session) :
  exists transcript, returns (transcribeAudioWithGroq audioBlob answer) s
                       transcript s.
Proof.
  destruct (Nat.eq_dec (Blob.size audioBlob) 0) as [Hzero | Hsize].
  - eexists. unfold returns.
    rewrite (transcribeAudioWithGroq_empty _ _ _ Hzero). split; reflexivity.
  - eexists. apply transcribeAudioWithGroq_requested. exact Hsize.
Qed.


(** ** The message handler: its equations *)

(** Once the payload parses, the handler is its body on the message. *)
Lemma handleDataChannelMessage_parsed env event msg s :
  JSON_parse_message (data event) = Some msg ->
  handleDataChannelMessage env event s
  = try_catch
      (dispatchMessage env msg;;
       setMsgs (fun prevMsgs => prevMsgs ++ [msg]);;
       mret (Some msg))
      (fun error => mret None) s.
Proof.
  intros Hparse.
  unfold handleDataChannelMessage, try_catch.
  rewrite Hparse.
  unfold mbind at 1, M_bind at 1. cbn [mret M_ret].
  match goal with
  | |- context [mbind ?k ?m s] => destruct (mbind k m s) as [[?|?] ? ?]
  end; reflexivity.
Qed.

(** When the case of the switch returns, the message is logged last and
    returned. *)
Lemma handleDataChannelMessage_dispatched env event msg s s1 e1 :
  JSON_parse_message (data event) = Some msg ->
  dispatchMessage env msg s = mkResult (Returned tt) s1 e1 ->
  handleDataChannelMessage env event s
  = mkResult (Returned (Some msg)) (set_msgs (msgs s1 ++ [msg]) s1) e1.
Proof.
  intros Hparse Hrun.
  rewrite (handleDataChannelMessage_parsed _ _ _ _ Hparse).
  unfold try_catch, mbind, M_bind. rewrite Hrun.
  cbn. rewrite !app_nil_r. reflexivity.
Qed.

(** When it throws, the handler returns [undefined] from its [catch] and
    the message is not logged. *)
Lemma handleDataChannelMessage_caught env event msg s x s1 e1 :
  JSON_parse_message (data event) = Some msg ->
  dispatchMessage env msg s = mkResult (Thrown x) s1 e1 ->
  handleDataChannelMessage env event s = mkResult (Returned None) s1 e1.
Proof.
  intros Hparse Hrun.
  rewrite (handleDataChannelMessage_parsed _ _ _ _ Hparse).
  unfold try_catch, mbind, M_bind. rewrite Hrun.
  cbn. rewrite !app_nil_r. reflexivity.
Qed.

Lemma dispatch_speech_stopped env msg :
  Msg.type msg = "input_audio_buffer.speech_stopped" ->
  dispatchMessage env msg
  = (updateEphemeralUserMessage
       (Conversation.mkPartial (Some (Str "Processing speech...")) None
          (Some "processing"));;
     recorder ← gets mediaRecorderRef;
     match recorder with
     | Some r =>
         if decide (MediaRecorder.state r = recording) then
           requestData r;;
           emit (SetTimeout speechStoppedTimeout 300)
         else mret tt
     | None => mret tt
     end).
Proof. intros Htype. unfold dispatchMessage. rewrite Htype. reflexivity. Qed.

Lemma dispatch_delta env msg :
  Msg.type msg = "response.audio_transcript.delta" ->
  dispatchMessage env msg
  = setConversation
      (appendDelta
         (Conversation.mk (uuidv4 env) assistant (Msg.delta msg) (now env)
            false None)
         (Msg.delta msg)).
Proof. intros Htype. unfold dispatchMessage. rewrite Htype. reflexivity. Qed.

Lemma dispatch_done env msg :
  Msg.type msg = "response.audio_transcript.done" ->
  dispatchMessage env msg = setConversation markLastFinal.
Proof. intros Htype. unfold dispatchMessage. rewrite Htype. reflexivity. Qed.

Lemma dispatch_function_call env msg :
  Msg.type msg = "response.function_call_arguments.done" ->
  dispatchMessage env msg
  = (fn ← gets (fun s => registry_get (functionRegistry s) (Msg.name msg));
     match fn with
     | Some fn =>
         args ← match JSON_parse (Msg.arguments msg) with
                | Some args => mret args
                | None => throw SyntaxError
                end;
         result ← await (fn args);
         replyToFunctionCall msg result
     | None => mret tt
     end).
Proof. intros Htype. unfold dispatchMessage. rewrite Htype. reflexivity. Qed.

(** ** Tool calls *)

(** A registered tool is what the registry answers for its name. *)
Lemma registry_get_own (registry : gmap string Fn) name (fn : Fn) :
  registry !! name = Some fn -> registry_get registry name = Some fn.
Proof. unfold registry_get. intros ->. reflexivity. Qed.


(** C8, as amended: when the registered handler throws, the exception is
    caught by the message handler's own [try]/[catch]: the handler returns
    without throwing, nothing is sent to the remote endpoint (no
    function-call output, no response.create), and the conversation log,
    the active-session flag and the channel are as they were. *)
Theorem throwing_tool_caught env event msg (s : Session)
    (fn : Fn) (args : JSValue) (x : Exn) :
  JSON_parse_message (data event) = Some msg ->
  Msg.type msg = "response.function_call_arguments.done" ->
  functionRegistry s !! Msg.name msg = Some fn ->
  JSON_parse (Msg.arguments msg) = Some args ->
  fn args = Thrown x ->
  outcome (handleDataChannelMessage env event s) = Returned None
  /\ effects (handleDataChannelMessage env event s) = []
  /\ conversation (final (handleDataChannelMessage env event s))
     = conversation s
  /\ isSessionActive (final (handleDataChannelMessage env event s))
     = isSessionActive s
  /\ dataChannelRef (final (handleDataChannelMessage env event s))
     = dataChannelRef s.
Proof.
  intros Hparse Htype Hfn Hargs Hthrow.
  assert (Hrun : handleDataChannelMessage env event s
                 = mkResult (Returned None) s []).
  { apply (handleDataChannelMessage_caught _ _ msg _ x); [exact Hparse|].
    rewrite (dispatch_function_call _ _ Htype).
    unfold mbind, M_bind, gets. cbv beta iota.
    rewrite (registry_get_own _ _ _ Hfn), Hargs.
    cbn [mret M_ret]. rewrite Hthrow. reflexivity. }
  rewrite Hrun. repeat split.
Qed.

(** ** Speech turns *)

Lemma updateEphemeralUserMessage_run partial s :
  updateEphemeralUserMessage partial s
  = mkResult (Returned tt)
      (if truthy (ephemeralUserMessageIdRef s) then
         set_conversation
           (map (fun msg =>
                   if decide (Conversation.id msg
                              = default "" (ephemeralUserMessageIdRef s))
                   then Conversation.merge msg partial
                   else msg)
              (conversation s)) s
       else s) [].
Proof.
  unfold updateEphemeralUserMessage, mbind, M_bind, gets. cbv beta iota.
  destruct (truthy (ephemeralUserMessageIdRef s)); reflexivity.
Qed.

(** A partial update that leaves [isFinal] out keeps every entry's
    finality, and each text is the old one or the partial's. *)
Lemma merge_placeholder_keeps_finality (i : string) st log :
  Forall2 keeps_finality log
    (map (fun msg =>
            if decide (Conversation.id msg = i)
            then Conversation.merge msg
                   (Conversation.mkPartial
                      (Some (Str "Processing speech...")) None (Some st))
            else msg) log).
Proof.
  induction log as [|e log IH]; cbn; constructor; [|exact IH].
  destruct (decide (Conversation.id e = i)); split; cbn; auto.
Qed.

Lemma onSpeechStoppedTimeout_empty answer (s : Session) :
  audioChunksRef s = [] ->
  onSpeechStoppedTimeout answer s = mkResult (Returned tt) s [].
Proof.
  intros Hchunks.
  unfold onSpeechStoppedTimeout, consolidateAudio, mbind, M_bind, gets.
  cbv beta iota. rewrite Hchunks. reflexivity.
Qed.

(** C4: handling a speech-stopped event issues no transcription request:
    the handler returns, and all it calls is the recorder's flush and the
    settling timer (or nothing, when no recorder is recording); it keeps
    the finality of every conversation entry and writes at most the
    placeholder text.  When the timer fires on an empty audio-chunk
    buffer, its callback does nothing at all: no request, no write to the
    conversation log, nothing sent. *)
Theorem speech_stopped_without_audio env event msg (s : Session) :
  JSON_parse_message (data event) = Some msg ->
  Msg.type msg = "input_audio_buffer.speech_stopped" ->
  outcome (handleDataChannelMessage env event s) = Returned (Some msg)
  /\ (effects (handleDataChannelMessage env event s) = [] \/
      effects (handleDataChannelMessage env event s)
      = [RecorderRequestData; SetTimeout speechStoppedTimeout 300])
  /\ Forall2 keeps_finality (conversation s)
       (conversation (final (handleDataChannelMessage env event s)))
  /\ (forall answer (s' : Session),
        audioChunksRef s' = [] ->
        onSpeechStoppedTimeout answer s' = mkResult (Returned tt) s' []).
Proof.
  intros Hparse Htype.
  set (partial := Conversation.mkPartial
                    (Some (Str "Processing speech...")) None
                    (Some "processing")).
  set (s1 := final (updateEphemeralUserMessage partial s)).
  assert (Hrun : exists e1,
             dispatchMessage env msg s = mkResult (Returned tt) s1 e1 /\
             (e1 = [] \/
              e1 = [RecorderRequestData; SetTimeout speechStoppedTimeout 300])).
  { rewrite (dispatch_speech_stopped _ _ Htype).
    unfold mbind, M_bind. subst s1 partial.
    rewrite updateEphemeralUserMessage_run. cbn [final].
    unfold gets. cbv beta iota.
    match goal with
    | |- context [mediaRecorderRef ?t] =>
        replace (mediaRecorderRef t) with (mediaRecorderRef s)
          by (destruct (truthy (ephemeralUserMessageIdRef s)); reflexivity)
    end.
    destruct (mediaRecorderRef s) as [r|]; [|eexists; split; eauto].
    destruct (decide (MediaRecorder.state r = recording)) as [Hrec|];
      [|eexists; split; eauto].
    unfold requestData. rewrite Hrec. cbn. eexists; split; eauto. }
  destruct Hrun as (e1 & Hrun & He1).
  rewrite (handleDataChannelMessage_dispatched _ _ _ _ _ _ Hparse Hrun).
  cbn [outcome effects final].
  split; [reflexivity|]. split; [exact He1|]. split.
  - subst s1. rewrite updateEphemeralUserMessage_run. cbn.
    destruct (truthy (ephemeralUserMessageIdRef s)); cbn.
    + apply merge_placeholder_keeps_finality.
    + apply Forall2_same_length_lookup; split; [reflexivity|].
      intros i x y Hx Hy. rewrite Hx in Hy. injection Hy as <-.
      split; auto.
  - intros answer s'. apply onSpeechStoppedTimeout_empty.
Qed.

(** ** Assistant transcripts *)

Lemma insert_last {A : Type} (init : list A) (x y : A) :
  <[pred (length (init ++ [x])) := y]> (init ++ [x]) = init ++ [y].
Proof.
  rewrite length_app, Nat.add_1_r. cbn [pred].
  rewrite insert_app_r_alt by lia. rewrite Nat.sub_diag. reflexivity.
Qed.

Lemma appendDelta_extend newMessage delta init tail :
  Conversation.role tail = assistant ->
  Conversation.isFinal tail = false ->
  appendDelta newMessage delta (init ++ [tail])
  = init ++ [Conversation.mk (Conversation.id tail) assistant
               (Text_append (Conversation.text tail) delta)
               (Conversation.timestamp tail) false
               (Conversation.status tail)].
Proof.
  intros Hrole Hfinal. unfold appendDelta.
  rewrite last_snoc, Hrole, Hfinal. cbn [negb andb].
  rewrite bool_decide_eq_true_2 by reflexivity. cbn [andb].
  apply insert_last.
Qed.

Lemma appendDelta_start newMessage delta prev :
  (forall tail, last prev = Some tail ->
     Conversation.role tail <> assistant \/
     Conversation.isFinal tail = true) ->
  appendDelta newMessage delta prev = prev ++ [newMessage].
Proof.
  intros Htail. unfold appendDelta.
  destruct (last prev) as [tail|]; [|reflexivity].
  destruct (Htail tail eq_refl) as [Hrole | Hfinal].
  - rewrite bool_decide_eq_false_2 by exact Hrole. reflexivity.
  - rewrite Hfinal, andb_false_r. reflexivity.
Qed.

Lemma markLastFinal_snoc init tail :
  markLastFinal (init ++ [tail])
  = init ++ [Conversation.mk (Conversation.id tail) (Conversation.role tail)
               (Conversation.text tail) (Conversation.timestamp tail) true
               (Conversation.status tail)].
Proof. unfold markLastFinal. rewrite last_snoc. apply insert_last. Qed.

Lemma handle_delta env event msg (s : Session) :
  JSON_parse_message (data event) = Some msg ->
  Msg.type msg = "response.audio_transcript.delta" ->
  outcome (handleDataChannelMessage env event s) = Returned (Some msg) /\
  conversation (final (handleDataChannelMessage env event s))
  = appendDelta
      (Conversation.mk (uuidv4 env) assistant (Msg.delta msg) (now env)
         false None)
      (Msg.delta msg) (conversation s).
Proof.
  intros Hparse Htype.
  erewrite handleDataChannelMessage_dispatched; [|exact Hparse|].
  2: { rewrite (dispatch_delta _ _ Htype). reflexivity. }
  split; reflexivity.
Qed.

Lemma handle_done env event msg (s : Session) :
  JSON_parse_message (data event) = Some msg ->
  Msg.type msg = "response.audio_transcript.done" ->
  outcome (handleDataChannelMessage env event s) = Returned (Some msg) /\
  conversation (final (handleDataChannelMessage env event s))
  = markLastFinal (conversation s).
Proof.
  intros Hparse Htype.
  erewrite handleDataChannelMessage_dispatched; [|exact Hparse|].
  2: { rewrite (dispatch_done _ _ Htype). reflexivity. }
  split; reflexivity.
Qed.

Lemma final_ignore {A : Type} (m : M A) (s : Session) :
  final (ignore m s) = final (m s).
Proof.
  unfold ignore, mbind, M_bind. destruct (m s) as [[a|x] s1 e1]; reflexivity.
Qed.

(** C5: on a log whose tail is a non-final assistant entry, a transcript
    delta appends the delta to the text of that entry; on every other
    log it appends a new non-final assistant entry whose text is the
    delta.  So, from a log whose tail is final or absent, the deltas
    "Hel", "lo" and " there" and then a done event leave the log with
    exactly one more entry, an assistant entry of text "Hello there" that
    is final. *)
Theorem assistant_transcript_streams :
  (forall env event msg (s : Session) init tail,
     JSON_parse_message (data event) = Some msg ->
     Msg.type msg = "response.audio_transcript.delta" ->
     conversation s = init ++ [tail] ->
     Conversation.role tail = assistant ->
     Conversation.isFinal tail = false ->
     outcome (handleDataChannelMessage env event s) = Returned (Some msg) /\
     conversation (final (handleDataChannelMessage env event s))
     = init ++ [Conversation.mk (Conversation.id tail) assistant
                  (Text_append (Conversation.text tail) (Msg.delta msg))
                  (Conversation.timestamp tail) false
                  (Conversation.status tail)])
  /\
  (forall env event msg (s : Session),
     JSON_parse_message (data event) = Some msg ->
     Msg.type msg = "response.audio_transcript.delta" ->
     (forall tail, last (conversation s) = Some tail ->
        Conversation.role tail <> assistant \/
        Conversation.isFinal tail = true) ->
     outcome (handleDataChannelMessage env event s) = Returned (Some msg) /\
     conversation (final (handleDataChannelMessage env event s))
     = conversation s
       ++ [Conversation.mk (uuidv4 env) assistant (Msg.delta msg) (now env)
             false None])
  /\
  (forall env1 env2 env3 env4 event1 event2 event3 event4
          msg1 msg2 msg3 msg4 (s : Session),
     JSON_parse_message (data event1) = Some msg1 ->
     JSON_parse_message (data event2) = Some msg2 ->
     JSON_parse_message (data event3) = Some msg3 ->
     JSON_parse_message (data event4) = Some msg4 ->
     Msg.type msg1 = "response.audio_transcript.delta" ->
     Msg.type msg2 = "response.audio_transcript.delta" ->
     Msg.type msg3 = "response.audio_transcript.delta" ->
     Msg.type msg4 = "response.audio_transcript.done" ->
     Msg.delta msg1 = "Hel" ->
     Msg.delta msg2 = "lo" ->
     Msg.delta msg3 = " there" ->
     (forall tail, last (conversation s) = Some tail ->
        Conversation.isFinal tail = true) ->
     conversation
       (run [Message env1 event1; Message env2 event2;
             Message env3 event3; Message env4 event4] s)
     = conversation s
       ++ [Conversation.mk (uuidv4 env1) assistant "Hello there" (now env1)
             true None]).
Proof.
  split; [|split].
  - intros env event msg s init tail Hparse Htype Hlog Hrole Hfinal.
    destruct (handle_delta env event msg s Hparse Htype) as [Ho Hc].
    split; [exact Ho|].
    rewrite Hc, Hlog. apply appendDelta_extend; assumption.
  - intros env event msg s Hparse Htype Htail.
    destruct (handle_delta env event msg s Hparse Htype) as [Ho Hc].
    split; [exact Ho|].
    rewrite Hc. apply appendDelta_start. exact Htail.
  - intros env1 env2 env3 env4 event1 event2 event3 event4 msg1 msg2 msg3
      msg4 s Hp1 Hp2 Hp3 Hp4 Ht1 Ht2 Ht3 Ht4 Hd1 Hd2 Hd3 Htail.
    cbn [run foldl exec]. rewrite !final_ignore.
    rewrite (proj2 (handle_done env4 event4 msg4 _ Hp4 Ht4)).
    rewrite (proj2 (handle_delta env3 event3 msg3 _ Hp3 Ht3)).
    rewrite (proj2 (handle_delta env2 event2 msg2 _ Hp2 Ht2)).
    rewrite (proj2 (handle_delta env1 event1 msg1 _ Hp1 Ht1)).
    rewrite Hd1, Hd2, Hd3.
    rewrite (appendDelta_start _ _ (conversation s)).
    2: { intros tail Hlast. right. exact (Htail tail Hlast). }
    rewrite appendDelta_extend by reflexivity.
    rewrite appendDelta_extend by reflexivity.
    rewrite markLastFinal_snoc. reflexivity.
Qed.

(** ** Invariants of runs *)

Lemma preserves_ret I {A : Type} (a : A) : preserves I (mret a).
Proof. intros s Hs. exact Hs. Qed.

Lemma preserves_gets I {A : Type} (g : Session -> A) : preserves I (gets g).
Proof. intros s Hs. exact Hs. Qed.

Lemma preserves_emit I e : preserves I (emit e).
Proof. intros s Hs. exact Hs. Qed.

Lemma preserves_throw I {A : Type} x : preserves I (throw (A := A) x).
Proof. intros s Hs. exact Hs. Qed.

Lemma preserves_modify (I : Session -> Prop) g :
  (forall s, I s -> I (g s)) -> preserves I (modify g).
Proof. intros Hg s Hs. apply Hg, Hs. Qed.

Lemma preserves_bind I {A B : Type} (m : M A) (f : A -> M B) :
  preserves I m -> (forall a, preserves I (f a)) -> preserves I (m ≫= f).
Proof.
  intros Hm Hf s Hs. specialize (Hm s Hs).
  unfold mbind, M_bind. destruct (m s) as [[a|x] s1 e1]; cbn in *.
  - specialize (Hf a s1 Hm). destruct (f a s1) as [o s2 e2]. exact Hf.
  - exact Hm.
Qed.

Lemma preserves_try_catch I {A : Type} (body : M A) (handler : Exn -> M A) :
  preserves I body -> (forall x, preserves I (handler x)) ->
  preserves I (try_catch body handler).
Proof.
  intros Hm Hh s Hs. specialize (Hm s Hs).
  unfold try_catch. destruct (body s) as [[a|x] s1 e1]; cbn in *.
  - exact Hm.
  - specialize (Hh x s1 Hm). destruct (handler x s1) as [o s2 e2]. exact Hh.
Qed.

Lemma preserves_await I {A : Type} (o : Outcome A) : preserves I (await o).
Proof. destruct o; intros s Hs; exact Hs. Qed.

Lemma preserves_when I (b : bool) (m : M unit) :
  preserves I m -> preserves I (when b m).
Proof. intros Hm. destruct b; [exact Hm | apply preserves_ret]. Qed.

Lemma preserves_for_each I {A : Type} (xs : list A) (body : A -> M unit) :
  (forall x, preserves I (body x)) -> preserves I (for_each xs body).
Proof.
  intros Hbody. induction xs as [|x xs IH]; cbn.
  - apply preserves_ret.
  - apply preserves_bind; [apply Hbody | intros _; exact IH].
Qed.

Lemma preserves_send I dataChannel payload :
  preserves I (send dataChannel payload).
Proof.
  unfold send. destruct (decide _);
    [apply preserves_emit | apply preserves_throw].
Qed.

(** A setter of another cell keeps what is said of the conversation. *)
Lemma preserves_setConversation (P : list Conversation.t -> Prop) f :
  (forall log, P log -> P (f log)) ->
  preserves (fun s => P (conversation s)) (setConversation f).
Proof. intros Hf s Hs. cbn. apply Hf, Hs. Qed.

(** Take a computation apart, down to its writes. *)
Ltac preserve :=
  repeat first
    [ apply preserves_ret
    | apply preserves_gets
    | apply preserves_emit
    | apply preserves_throw
    | apply preserves_await
    | apply preserves_send
    | apply preserves_bind; [|intros ?]
    | apply preserves_try_catch; [|intros ?]
    | apply preserves_when
    | apply preserves_for_each; intros ?
    | apply preserves_modify; intros ? ?; assumption
    | match goal with
      | |- preserves _ (match ?x with _ => _ end) => destruct x
      end ].

(** *** What the updaters do to runs of assistant entries *)

Lemma assistant_runs_final_nil : assistant_runs_final [].
Proof. intros i a b Ha. rewrite lookup_nil in Ha. discriminate. Qed.

(** Appending keeps the invariant when the old tail, if it is an
    assistant entry followed by an assistant entry, is final. *)
Lemma assistant_runs_final_snoc log e :
  assistant_runs_final log ->
  (forall tail, last log = Some tail ->
     Conversation.role tail = assistant ->
     Conversation.role e = assistant ->
     Conversation.isFinal tail = true) ->
  assistant_runs_final (log ++ [e]).
Proof.
  intros Hlog Htail i a b Ha Hb Hra Hrb.
  destruct (decide (S i < length log)) as [Hlt | Hge].
  - rewrite lookup_app_l in Ha by lia. rewrite lookup_app_l in Hb by lia.
    eapply Hlog; eassumption.
  - assert (Hi : S i = length log).
    { apply lookup_lt_Some in Hb. rewrite length_app in Hb. cbn in Hb. lia. }
    rewrite lookup_app_l in Ha by lia.
    rewrite lookup_app_r in Hb by lia.
    rewrite Hi, Nat.sub_diag in Hb. injection Hb as <-.
    apply (Htail a); [|assumption..].
    rewrite last_lookup, <- Hi. exact Ha.
Qed.

(** A pointwise change that keeps roles and never withdraws finality
    keeps the invariant. *)
Lemma assistant_runs_final_map (g : Conversation.t -> Conversation.t) log :
  (forall e, Conversation.role (g e) = Conversation.role e) ->
  (forall e, Conversation.isFinal e = true ->
     Conversation.isFinal (g e) = true) ->
  assistant_runs_final log -> assistant_runs_final (map g log).
Proof.
  intros Hrole Hfinal Hlog i a b Ha Hb Hra Hrb.
  change (map g log) with (g <$> log) in Ha, Hb.
  rewrite list_lookup_fmap in Ha, Hb.
  destruct (log !! i) as [a0|] eqn:Ha0; [|discriminate].
  destruct (log !! S i) as [b0|] eqn:Hb0; [|discriminate].
  cbn in Ha, Hb. injection Ha as <-. injection Hb as <-.
  rewrite Hrole in Hra, Hrb. apply Hfinal. eapply Hlog; eassumption.
Qed.

(** Replacing the tail by an entry of the same role keeps it. *)
Lemma assistant_runs_final_replace_last log tail e :
  last log = Some tail ->
  Conversation.role e = Conversation.role tail ->
  assistant_runs_final log ->
  assistant_runs_final (<[pred (length log) := e]> log).
Proof.
  intros Hlast Hrole Hlog i a b Ha Hb Hra Hrb.
  rewrite last_lookup in Hlast.
  assert (Hlt : S i < length log).
  { apply lookup_lt_Some in Hb. rewrite length_insert in Hb. exact Hb. }
  rewrite list_lookup_insert_ne in Ha by lia.
  destruct (decide (S i = pred (length log))) as [Hi | Hi].
  - rewrite Hi, list_lookup_insert_eq in Hb by lia. injection Hb as <-.
    apply (Hlog i a tail); try assumption.
    + rewrite Hi. exact Hlast.
    + rewrite <- Hrole. exact Hrb.
  - rewrite list_lookup_insert_ne in Hb by lia.
    eapply Hlog; eassumption.
Qed.

Lemma appendDelta_assistant_runs newMessage delta log :
  Conversation.role newMessage = assistant ->
  assistant_runs_final log ->
  assistant_runs_final (appendDelta newMessage delta log).
Proof.
  intros Hnew Hlog. unfold appendDelta.
  destruct (last log) as [tail|] eqn:Hlast.
  - destruct (bool_decide (Conversation.role tail = assistant)) eqn:Hrole;
      cbn [andb].
    + destruct (Conversation.isFinal tail) eqn:Hfinal; cbn [negb].
      * apply assistant_runs_final_snoc; [exact Hlog|].
        intros t Ht _ _. congruence.
      * eapply assistant_runs_final_replace_last; eauto.
    + apply bool_decide_eq_false_1 in Hrole.
      apply assistant_runs_final_snoc; [exact Hlog|].
      intros t Ht Hrt _. congruence.
  - apply assistant_runs_final_snoc; [exact Hlog|].
    intros t Ht. congruence.
Qed.

Lemma markLastFinal_assistant_runs log :
  assistant_runs_final log -> assistant_runs_final (markLastFinal log).
Proof.
  intros Hlog. unfold markLastFinal.
  destruct (last log) as [tail|] eqn:Hlast; [|exact Hlog].
  eapply assistant_runs_final_replace_last; eauto.
Qed.

Lemma append_user_assistant_runs e log :
  Conversation.role e = user ->
  assistant_runs_final log -> assistant_runs_final (log ++ [e]).
Proof.
  intros Hrole Hlog. apply assistant_runs_final_snoc; [exact Hlog|].
  intros tail _ _ He. congruence.
Qed.

Lemma merge_assistant_runs (i : string) partial log :
  Conversation.p_isFinal partial <> Some false ->
  assistant_runs_final log ->
  assistant_runs_final
    (map (fun msg =>
            if decide (Conversation.id msg = i)
            then Conversation.merge msg partial
            else msg) log).
Proof.
  intros Hpartial. apply assistant_runs_final_map.
  - intros e. destruct (decide _); reflexivity.
  - intros e He. destruct (decide _); [|exact He].
    cbn. destruct (Conversation.p_isFinal partial) as [[]|]; cbn;
      congruence.
Qed.

(** *** Every operation keeps the runs of assistant entries final *)

Lemma updateEphemeralUserMessage_runs_final partial :
  Conversation.p_isFinal partial <> Some false ->
  preserves runs_final (updateEphemeralUserMessage partial).
Proof.
  intros Hpartial. unfold updateEphemeralUserMessage.
  apply preserves_bind; [apply preserves_gets | intros ephemeralId].
  destruct (truthy ephemeralId); [|apply preserves_ret].
  apply (preserves_setConversation assistant_runs_final).
  intros log. apply merge_assistant_runs. exact Hpartial.
Qed.

Lemma stopSession_runs_final : preserves runs_final stopSession.
Proof.
  unfold stopSession, stop, setCurrentVolume, setIsSessionActive, setStatus,
    setMsgs.
  preserve.
  apply (preserves_setConversation assistant_runs_final).
  intros log _. apply assistant_runs_final_nil.
Qed.

Lemma dispatchMessage_runs_final env msg :
  preserves runs_final (dispatchMessage env msg).
Proof.
  unfold dispatchMessage. cbv zeta.
  repeat match goal with
         | |- preserves _ (if ?b then _ else _) => destruct b
         end.
  - unfold getOrCreateEphemeralUserId.
    apply preserves_bind; [|intros _].
    + apply preserves_bind; [apply preserves_gets | intros ephemeralId].
      destruct (truthy ephemeralId); [apply preserves_ret|].
      apply preserves_bind; [preserve | intros _].
      apply preserves_bind; [|intros _; apply preserves_ret].
      apply (preserves_setConversation assistant_runs_final).
      intros log. apply append_user_assistant_runs. reflexivity.
    + apply preserves_bind; [|intros _; preserve].
      apply updateEphemeralUserMessage_runs_final. discriminate.
  - apply preserves_bind; [|intros _].
    + apply updateEphemeralUserMessage_runs_final. discriminate.
    + unfold requestData. preserve.
  - apply preserves_ret.
  - apply preserves_ret.
  - apply preserves_ret.
  - apply (preserves_setConversation assistant_runs_final).
    intros log. apply appendDelta_assistant_runs. reflexivity.
  - apply (preserves_setConversation assistant_runs_final).
    intros log. apply markLastFinal_assistant_runs.
  - unfold replyToFunctionCall, send_if_present. preserve.
  - apply preserves_ret.
Qed.

Lemma exec_runs_final op : preserves runs_final (exec op).
Proof.
  destruct op; cbn [exec]; unfold ignore.
  - unfold startSession, setStatus, setIsSessionActive.
    apply preserves_try_catch.
    + preserve.
    + intros err. apply preserves_bind; [preserve|].
      intros _. apply stopSession_runs_final.
  - apply stopSession_runs_final.
  - unfold toggleMic, setIsMicMuted. preserve.
  - unfold registerFunction. preserve.
  - unfold sendTextMessage. preserve.
    apply (preserves_setConversation assistant_runs_final).
    intros log. apply append_user_assistant_runs. reflexivity.
  - unfold handleDataChannelMessage, setMsgs.
    apply preserves_bind; [|intros ?; apply preserves_ret].
    apply preserves_try_catch; [|intros ?; apply preserves_ret].
    apply preserves_bind; [preserve | intros msg0].
    apply preserves_bind; [apply dispatchMessage_runs_final | intros _].
    preserve.
  - unfold resumeFunctionCall, replyToFunctionCall, send_if_present, setMsgs.
    preserve.
  - unfold onSpeechStoppedTimeout, consolidateAudio.
    apply preserves_bind; [preserve | intros audio].
    destruct audio as [audioBlob|]; [|apply preserves_ret].
    apply preserves_bind.
    + intros s0 Hs0.
      destruct (transcribeAudioWithGroq_returns audioBlob answer s0)
        as (transcript & _ & ->).
      exact Hs0.
    + intros transcript. unfold afterTranscription, clearEphemeralUserMessage.
      apply preserves_bind; [|intros _; preserve].
      apply updateEphemeralUserMessage_runs_final. discriminate.
  - unfold consolidateAudio. preserve.
  - unfold afterTranscription, clearEphemeralUserMessage.
    apply preserves_bind; [|intros _; preserve].
    apply updateEphemeralUserMessage_runs_final. discriminate.
  - unfold ondataavailable. preserve.
  - unfold ontrack. preserve.
  - unfold sampleVolume, setCurrentVolume. preserve.
  - unfold onopen, channelStateChange, configureDataChannel. preserve.
  - unfold channelStateChange. preserve.
  - unfold recorderStateChange. preserve.
  - unfold attachIndicator. preserve.
Qed.

(** C6, as amended: in every conversation log a run of the hook reaches,
    an assistant entry that another assistant entry follows is final; so
    an assistant entry that is not final is the tail of the log or has a
    user entry right after it. *)
Theorem reachable_assistant_runs_final (s : Session) :
  reachable s -> assistant_runs_final (conversation s).
Proof.
  induction 1 as [|s op Hreach IH].
  - apply assistant_runs_final_nil.
  - apply (exec_runs_final op s IH).
Qed.

Lemma run_reachable ops (s : Session) : reachable s -> reachable (run ops s).
Proof.
  revert s. induction ops as [|op ops IH]; intros s Hs; [exact Hs|].
  cbn. apply IH. constructor. exact Hs.
Qed.

(** ** The raw message log *)

Lemma dispatchMessage_keeps_msgs env msg log :
  preserves (fun s => msgs s = log) (dispatchMessage env msg).
Proof.
  unfold dispatchMessage, getOrCreateEphemeralUserId,
    updateEphemeralUserMessage, replyToFunctionCall, send_if_present,
    requestData, setConversation.
  cbv zeta.
  repeat match goal with
         | |- preserves _ (if ?b then _ else _) => destruct b
         end; preserve.
Qed.

(** Whenever the handler returns a message, it has logged that message
    last in the raw message log. *)
Lemma handleDataChannelMessage_logs env event msg (s : Session) :
  outcome (handleDataChannelMessage env event s) = Returned (Some msg) ->
  msgs (final (handleDataChannelMessage env event s)) = msgs s ++ [msg].
Proof.
  destruct (JSON_parse_message (data event)) as [msg0|] eqn:Hparse.
  - pose proof (dispatchMessage_keeps_msgs env msg0 (msgs s) s eq_refl)
      as Hkeep.
    destruct (dispatchMessage env msg0 s) as [[[]|x] s1 e1] eqn:Hrun.
    + rewrite (handleDataChannelMessage_dispatched _ _ _ _ _ _ Hparse Hrun).
      cbn in *. intros [= <-]. rewrite Hkeep. reflexivity.
    + rewrite (handleDataChannelMessage_caught _ _ _ _ _ _ _ Hparse Hrun).
      discriminate.
  - unfold handleDataChannelMessage, try_catch, mbind, M_bind.
    rewrite Hparse. discriminate.
Qed.

End Properties.

(** * The properties at work on concrete runs *)

Section Examples.

#[local] Existing Instance example_json.

(** C1 fails as stated: after a teardown of a muted session the status
    text is "Session stopped", not the initial empty text, and the
    mic-muted flag is still set. *)
Lemma stopSession_not_initial :
  status (final (stopSession muted)) = "Session stopped" /\
  isMicMuted (final (stopSession muted)) = true /\
  ~ reset_to_initial (final (stopSession muted)).
Proof.
  split; [reflexivity|]. split; [reflexivity|].
  intros (Hstatus & _). vm_compute in Hstatus. discriminate.
Qed.



Lemma speech_stopped_without_audio_witness :
  JSON_parse_message (data speech_stopped_event) = Some speech_stopped_msg /\
  effects (handleDataChannelMessage example_env speech_stopped_event
             established)
  = [RecorderRequestData; SetTimeout speechStoppedTimeout 300] /\
  effects (onSpeechStoppedTimeout (Thrown (Rejected "offline")) established)
  = [].
Proof.
  split; [reflexivity|].
  destruct (speech_stopped_without_audio example_env speech_stopped_event
              speech_stopped_msg established eq_refl eq_refl)
    as (_ & _ & _ & Htimer).
  split; [reflexivity|].
  rewrite Htimer; reflexivity.
Defined.

Lemma assistant_transcript_streams_witness :
  conversation
    (run [Message {| uuidv4 := "uuid-1"; now := "t1" |} (delta_event "Hel");
          Message {| uuidv4 := "uuid-2"; now := "t2" |} (delta_event "lo");
          Message {| uuidv4 := "uuid-3"; now := "t3" |}
            (delta_event " there");
          Message {| uuidv4 := "uuid-4"; now := "t4" |} done_event]
       established)
  = conversation established
    ++ [Conversation.mk "uuid-1" assistant "Hello there" "t1" true None].
Proof.
  apply (proj2 (proj2 assistant_transcript_streams)
           {| uuidv4 := "uuid-1"; now := "t1" |}
           {| uuidv4 := "uuid-2"; now := "t2" |}
           {| uuidv4 := "uuid-3"; now := "t3" |}
           {| uuidv4 := "uuid-4"; now := "t4" |}
           (delta_event "Hel") (delta_event "lo") (delta_event " there")
           done_event
           (delta_msg "Hel") (delta_msg "lo") (delta_msg " there") done_msg);
    try reflexivity.
  intros tail Hlast. vm_compute in Hlast. discriminate.
Defined.

(** C6 fails as stated: when the user sends a text while the assistant is
    answering, the assistant entry being streamed is no longer the tail
    and is not final. *)
Lemma interrupted_assistant_not_final :
  reachable interrupted /\
  conversation interrupted
  = [Conversation.mk "uuid-1" assistant "Hel" "t1" false None;
     Conversation.mk "uuid-2" user "hi" "t2" true (Some "final")] /\
  ~ non_tail_assistants_final (conversation interrupted).
Proof.
  split; [apply run_reachable, reachable_initial|].
  split; [reflexivity|].
  intros Hinv.
  specialize (Hinv 0 (Conversation.mk "uuid-1" assistant "Hel" "t1" false
                        None)).
  assert (Hfinal : false = true); [|discriminate].
  apply Hinv; [reflexivity | vm_compute; lia | reflexivity].
Qed.

Lemma reachable_assistant_runs_final_witness :
  reachable interrupted /\ assistant_runs_final (conversation interrupted).
Proof.
  assert (Hreach : reachable interrupted)
    by apply run_reachable, reachable_initial.
  split; [exact Hreach|].
  apply (reachable_assistant_runs_final interrupted Hreach).
Defined.


(** C8 fails as stated: the registered tool throws, and no function-call
    output (nothing at all) goes to the remote endpoint, though the
    channel is open. *)
(** C7 fails on the code: no tool is registered and the event names
    [constructor].  The registry object answers with [Object], which it
    inherits from [Object.prototype]; the handler calls it on the
    arguments and sends its result as the function-call output, then the
    request for a response. *)
Lemma inherited_constructor_called :
  functionRegistry established !! "constructor" = None /\
  dataChannelRef established = Some {| readyState := open |} /\
  handleDataChannelMessage example_env (function_call_event "constructor")
    established
  = mkResult (Returned (Some (function_call_msg "constructor")))
      (set_msgs (msgs established ++ [function_call_msg "constructor"])
         established)
      [DataChannelSend (function_call_output "call_1" "{}");
       DataChannelSend response_create] /\
  sends_function_call_output
    (handleDataChannelMessage example_env (function_call_event "constructor")
       established).
Proof.
  split; [reflexivity|]. split; [reflexivity|]. split; [reflexivity|].
  exists "call_1", "{}". apply list_elem_of_here.
Qed.

Lemma throwing_tool_not_reported :
  functionRegistry with_throwing_tool !! "getCurrentTime"
  = Some throwing_tool /\
  dataChannelRef with_throwing_tool = Some {| readyState := open |} /\
  ~ sends_function_call_output
      (handleDataChannelMessage example_env
         (function_call_event "getCurrentTime") with_throwing_tool).
Proof.
  split; [reflexivity|]. split; [reflexivity|].
  intros (call_id & output & Hsent).
  vm_compute in Hsent. inversion Hsent.
Qed.

Lemma throwing_tool_caught_witness :
  outcome (handleDataChannelMessage example_env
             (function_call_event "getCurrentTime") with_throwing_tool)
  = Returned None /\
  effects (handleDataChannelMessage example_env
             (function_call_event "getCurrentTime") with_throwing_tool)
  = [].
Proof.
  destruct (throwing_tool_caught example_env
              (function_call_event "getCurrentTime")
              (function_call_msg "getCurrentTime") with_throwing_tool
              throwing_tool "{}" (Error "tool failed")
              eq_refl eq_refl eq_refl eq_refl eq_refl)
    as (Ho & He & _).
  split; assumption.
Defined.

(** C9 fails on the code: the message of a call whose tool throws is
    handled and is not in the raw message log afterwards. *)
Lemma throwing_tool_call_not_logged :
  JSON_parse_message (data (function_call_event "getCurrentTime"))
  = Some (function_call_msg "getCurrentTime") /\
  msgs (final (handleDataChannelMessage example_env
                 (function_call_event "getCurrentTime") with_throwing_tool))
  = msgs with_throwing_tool /\
  msgs (final (handleDataChannelMessage example_env
                 (function_call_event "getCurrentTime") with_throwing_tool))
  <> msgs with_throwing_tool ++ [function_call_msg "getCurrentTime"].
Proof.
  split; [reflexivity|]. split; [reflexivity|].
  vm_compute. discriminate.
Qed.

Lemma sendTextMessage_not_ready_witness :
  sendTextMessage example_env "hi" initial
  = mkResult (Returned tt) initial [].
Proof.
  apply sendTextMessage_not_ready. left. reflexivity.
Defined.

End Examples.


(** * Further properties *)

Section Further.

Context `{JSON}.

(** ** Runs with their calls *)

Lemma run_bind_returned {A B : Type} (m : M A) (f : A -> M B) s a s1 e1 :
  m s = mkResult (Returned a) s1 e1 ->
  (m ≫= f) s
  = match f a s1 with
    | mkResult o s2 e2 => mkResult o s2 (e1 ++ e2)
    end.
Proof. intros Hm. unfold mbind, M_bind. rewrite Hm. reflexivity. Qed.

Lemma run_bind_thrown {A B : Type} (m : M A) (f : A -> M B) s x s1 e1 :
  m s = mkResult (Thrown x) s1 e1 ->
  (m ≫= f) s = mkResult (Thrown x) s1 e1.
Proof. intros Hm. unfold mbind, M_bind. rewrite Hm. reflexivity. Qed.

Lemma run_bind_gets {A B : Type} (g : Session -> A) (f : A -> M B) s :
  (gets g ≫= f) s = f (g s) s.
Proof.
  unfold mbind, M_bind, gets. destruct (f (g s) s) as [o s2 e2]. reflexivity.
Qed.

Lemma run_bind_modify {B : Type} (g : Session -> Session) (f : unit -> M B) s :
  (modify g ≫= f) s = f tt (g s).
Proof.
  unfold mbind, M_bind, modify. destruct (f tt (g s)) as [o s2 e2].
  reflexivity.
Qed.

Lemma run_bind_ret {A B : Type} (a : A) (f : A -> M B) s :
  (mret a ≫= f) s = f a s.
Proof.
  unfold mbind, M_bind, mret, M_ret. destruct (f a s) as [o s2 e2].
  reflexivity.
Qed.

(** [m] run from [s] returns [a], leaves [s'] and makes the calls [e]. *)
Lemma runs_bind {A B : Type} (m : M A) (f : A -> M B) s a s1 e1 b s2 e2 :
  m s = mkResult (Returned a) s1 e1 ->
  f a s1 = mkResult (Returned b) s2 e2 ->
  (m ≫= f) s = mkResult (Returned b) s2 (e1 ++ e2).
Proof.
  intros Hm Hf. rewrite (run_bind_returned _ _ _ _ _ _ Hm), Hf. reflexivity.
Qed.

Lemma for_each_track_stop (tracks : list MediaStreamTrack) (s : Session) :
  for_each tracks (fun _ => emit TrackStop) s
  = mkResult (Returned tt) s (replicate (length tracks) TrackStop).
Proof.
  induction tracks as [|track tracks IH]; [reflexivity|].
  cbn. unfold mbind, M_bind. cbn. rewrite IH. reflexivity.
Qed.

(** ** Teardown releases everything *)

(** One guarded release, with the call it makes. *)
Ltac releasing g calls :=
  match goal with
  | |- (gets _ ≫= _) ?s = _ =>
      rewrite run_bind_gets;
      eapply (runs_bind _ _ s tt (g s) (calls s));
      [ destruct s; unfold when, stop; cbn; repeat case_match;
        simplify_eq/=; unfold mbind, M_bind;
        rewrite ?for_each_track_stop; cbn; rewrite ?app_nil_r;
        reflexivity | ]
  end.

Lemma stopSession_run (s : Session) :
  stopSession s = mkResult (Returned tt) (stopped s) (release_calls s).
Proof.
  assert (Hrun : exists calls,
             stopSession s = mkResult (Returned tt) (stopped s) calls /\
             calls = release_calls s);
    [|destruct Hrun as (calls & -> & ->); reflexivity].
  eexists. split.
  - unfold stopSession.
    releasing (set_dataChannelRef None)
      (fun s : Session =>
         match dataChannelRef s with
         | Some _ => [DataChannelClose]
         | None => []
         end).
    releasing (set_peerConnectionRef None)
      (fun s : Session =>
         match peerConnectionRef s with
         | Some _ => [PeerConnectionClose]
         | None => []
         end).
    releasing (set_audioContextRef None)
      (fun s : Session =>
         match audioContextRef s with
         | Some _ => [AudioContextClose]
         | None => []
         end).
    releasing (set_audioStreamRef None)
      (fun s : Session =>
         replicate (length (default [] (audioStreamRef s))) TrackStop).
    releasing (fun s => set_audioIndicatorRef
                          (match audioIndicatorRef s with
                           | Some _ => Some {| active := false |}
                           | None => None
                           end) s)
      (fun _ : Session => @nil Effect).
    releasing (fun s => set_volumeIntervalRef
                          (if truthy_handle (volumeIntervalRef s) then None
                           else volumeIntervalRef s) s)
      (fun s : Session =>
         if truthy_handle (volumeIntervalRef s)
         then [ClearInterval (default 0%Z (volumeIntervalRef s))] else []).
    releasing (fun s => set_timeoutRef
                          (if truthy_handle (timeoutRef s) then None
                           else timeoutRef s) s)
      (fun s : Session =>
         if truthy_handle (timeoutRef s)
         then [ClearTimeout (default 0%Z (timeoutRef s))] else []).
    releasing (set_mediaRecorderRef None)
      (fun s : Session =>
         match mediaRecorderRef s with
         | Some r =>
             if bool_decide (MediaRecorder.state r = inactive) then []
             else [RecorderStop]
         | None => []
         end).
    unfold setCurrentVolume, setIsSessionActive, setStatus, setMsgs,
      setConversation.
    rewrite !run_bind_modify.
    destruct s; reflexivity.
  - destruct s; cbn. rewrite !app_nil_r. reflexivity.
Qed.

(** After [stopSession] no handle is left and no timer: a timer reference
    whose handle is not zero is cleared and set to [null], one whose handle
    is zero stays as it is, so neither holds a timer afterwards.  The tool
    registry is as it was, and the calls made are one close per handle
    that was there: the channel, the connection, the audio context, a stop
    per track, the timers whose handle is not zero, and the recorder's
    stop unless it was inactive. *)
Theorem stopSession_releases (s : Session) :
  handles_released (final (stopSession s)) /\
  volumeIntervalRef (final (stopSession s))
  = (if truthy_handle (volumeIntervalRef s) then None
     else volumeIntervalRef s) /\
  timeoutRef (final (stopSession s))
  = (if truthy_handle (timeoutRef s) then None else timeoutRef s) /\
  truthy_handle (volumeIntervalRef (final (stopSession s))) = false /\
  truthy_handle (timeoutRef (final (stopSession s))) = false /\
  functionRegistry (final (stopSession s)) = functionRegistry s /\
  effects (stopSession s) = release_calls s.
Proof.
  rewrite stopSession_run. cbn [final effects stopped volumeIntervalRef
                                  timeoutRef functionRegistry].
  repeat split.
  - destruct (truthy_handle (volumeIntervalRef s)) eqn:Hhandle;
      [reflexivity | exact Hhandle].
  - destruct (truthy_handle (timeoutRef s)) eqn:Hhandle;
      [reflexivity | exact Hhandle].
Qed.


(** ** Stepping through a handler *)

Lemma run_bind_throw {A B : Type} (x : Exn) (f : A -> M B) s :
  (throw x ≫= f) s = mkResult (Thrown x) s [].
Proof. reflexivity. Qed.

Lemma run_bind_emit {B : Type} (e : Effect) (f : unit -> M B) s :
  (emit e ≫= f) s
  = match f tt s with
    | mkResult o s2 e2 => mkResult o s2 (e :: e2)
    end.
Proof. reflexivity. Qed.

Ltac step :=
  repeat first
    [ rewrite run_bind_ret
    | rewrite run_bind_modify
    | rewrite run_bind_gets
    | rewrite run_bind_throw
    | rewrite run_bind_emit
    | progress cbv beta iota
    | progress cbn [await when negb andb] ].

(** ** Session start *)

(** [startSession] either sets the whole session up, or tears everything
    down: its [catch] ends in [stopSession]. *)
Lemma startSession_cases (env : StartEnv) (s : Session) :
  (start_succeeds env = true /\
   exists stream,
     getUserMedia env = Returned stream /\
     startSession env s
     = mkResult (Returned tt)
         (set_status "Session established successfully!"
            (set_isSessionActive true
               (set_mediaRecorderRef
                  (Some (MediaRecorder.mk recording
                           (selectMimeType (isTypeSupported env))))
                  (set_dataChannelRef (Some {| readyState := connecting |})
                     (set_peerConnectionRef (Some peerConnection)
                        (set_audioContextRef (Some audioContext)
                           (set_audioStreamRef (Some stream) s)))))))
         [RecorderStart 500])
  \/
  (start_succeeds env = false /\
   exists s' calls,
     startSession env s = mkResult (Returned tt) (stopped s') calls).
Proof.
  destruct env as [gum tok sup neg].
  unfold start_succeeds, startSession, try_catch, setStatus,
    setIsSessionActive.
  cbn [getUserMedia getEphemeralToken isTypeSupported negotiation].
  destruct gum as [[|track tracks] | x], tok as [token | x'],
    (sup (selectMimeType sup)) eqn:Hsup, neg as [[] | x''];
    step.
  all: try (right; split; [reflexivity|];
            rewrite stopSession_run; cbv beta iota;
            rewrite ?app_nil_l; eauto).
  unfold modify. cbv beta iota.
  left. split; [reflexivity|]. eexists. split; [reflexivity|].
  destruct s; reflexivity.
Qed.

(** [startSession], when no other handler runs during it, never throws.
    When the start meets no failure the session is active with all its
    handles, the recorder records in the chosen encoding and the
    conversation log is untouched.  When any step fails nothing of the
    session is left: not active, no handle, empty logs, and the status
    reads "Session stopped" (the error text set in the [catch] is
    overwritten by the teardown). *)
Theorem startSession_all_or_nothing (env : StartEnv) (s : Session) :
  outcome (startSession env s) = Returned tt /\
  (start_succeeds env = true ->
   isSessionActive (final (startSession env s)) = true /\
   status (final (startSession env s))
   = "Session established successfully!" /\
   handles_present (final (startSession env s)) /\
   mediaRecorderRef (final (startSession env s))
   = Some (MediaRecorder.mk recording
             (selectMimeType (isTypeSupported env))) /\
   conversation (final (startSession env s)) = conversation s) /\
  (start_succeeds env = false ->
   isSessionActive (final (startSession env s)) = false /\
   status (final (startSession env s)) = "Session stopped" /\
   handles_released (final (startSession env s)) /\
   conversation (final (startSession env s)) = [] /\
   msgs (final (startSession env s)) = []).
Proof.
  destruct (startSession_cases env s)
    as [(Hok & stream & _ & ->) | (Hko & s' & calls & ->)];
    (split; [reflexivity|]); rewrite ?Hok, ?Hko; split; intros Hs;
    try discriminate.
  - unfold handles_present. cbn. repeat split; eauto.
  - unfold handles_released. cbn. repeat split.
Qed.

(** ** Invariants of every run *)

(** Take a computation apart, down to its writes; [solve_write] settles
    a write. *)
Lemma transcribeAudioWithGroq_preserves I audioBlob answer :
  preserves I (transcribeAudioWithGroq audioBlob answer).
Proof.
  intros s Hs.
  destruct (transcribeAudioWithGroq_returns audioBlob answer s)
    as (transcript & _ & ->).
  exact Hs.
Qed.

Ltac keep solve_write :=
  repeat match goal with
    | |- preserves _ (mret _) => apply preserves_ret
    | |- preserves _ (gets _) => apply preserves_gets
    | |- preserves _ (emit _) => apply preserves_emit
    | |- preserves _ (throw _) => apply preserves_throw
    | |- preserves _ (await _) => apply preserves_await
    | |- preserves _ (send _ _) => apply preserves_send
    | |- preserves _ (transcribeAudioWithGroq _ _) =>
        apply transcribeAudioWithGroq_preserves
    | |- preserves _ (mbind _ _) => apply preserves_bind; [|intros ?]
    | |- preserves _ (try_catch _ _) =>
        apply preserves_try_catch; [|intros ?]
    | |- preserves _ (when _ _) => apply preserves_when
    | |- preserves _ (for_each _ _) => apply preserves_for_each; intros ?
    | |- preserves _ (modify _) =>
        apply preserves_modify; intros ? ?; solve_write
    | |- preserves _ (match ?x with _ => _ end) => destruct x
    end.

Ltac unfold_handlers :=
  unfold ignore, handleDataChannelMessage, dispatchMessage,
    resumeFunctionCall, replyToFunctionCall, send_if_present,
    getOrCreateEphemeralUserId, updateEphemeralUserMessage,
    clearEphemeralUserMessage, requestData, onSpeechStoppedTimeout,
    consolidateAudio, afterTranscription, sendTextMessage, toggleMic,
    registerFunction, ondataavailable, ontrack, sampleVolume, onopen,
    channelStateChange, recorderStateChange, configureDataChannel,
    attachIndicator, setStatus, setIsSessionActive, setIsMicMuted,
    setCurrentVolume, setMsgs, setConversation;
  cbv zeta.

(** *** The conversation log only grows, until it is reset *)

Lemma same_entry_refl e : same_entry e e.
Proof. repeat split; auto. Qed.

Lemma same_entry_trans e1 e2 e3 :
  same_entry e1 e2 -> same_entry e2 e3 -> same_entry e1 e3.
Proof.
  intros (Hi & Hr & Ht & Hf) (Hi' & Hr' & Ht' & Hf').
  repeat split; try congruence. auto.
Qed.

Lemma log_extends_refl log : log_extends log log.
Proof. intros i e He. exists e. split; [exact He | apply same_entry_refl]. Qed.

Lemma log_extends_trans l1 l2 l3 :
  log_extends l1 l2 -> log_extends l2 l3 -> log_extends l1 l3.
Proof.
  intros H12 H23 i e He.
  destruct (H12 i e He) as (e2 & He2 & Hs2).
  destruct (H23 i e2 He2) as (e3 & He3 & Hs3).
  exists e3. split; [exact He3 | eapply same_entry_trans; eassumption].
Qed.

Lemma log_extends_snoc log e : log_extends log (log ++ [e]).
Proof.
  intros i e0 He0. exists e0. split; [|apply same_entry_refl].
  apply lookup_app_l_Some. exact He0.
Qed.

Lemma log_extends_map (g : Conversation.t -> Conversation.t) log :
  (forall e, same_entry e (g e)) -> log_extends log (map g log).
Proof.
  intros Hg i e He. exists (g e). split; [|apply Hg].
  change (map g log) with (g <$> log).
  rewrite list_lookup_fmap, He. reflexivity.
Qed.

Lemma log_extends_replace_last log tail e :
  last log = Some tail -> same_entry tail e ->
  log_extends log (<[pred (length log) := e]> log).
Proof.
  intros Hlast Hsame i e0 He0. rewrite last_lookup in Hlast.
  destruct (decide (i = pred (length log))) as [-> | Hi].
  - exists e. rewrite list_lookup_insert_eq
      by (apply lookup_lt_Some in He0; exact He0).
    split; [reflexivity|]. congruence.
  - exists e0. rewrite list_lookup_insert_ne by congruence.
    split; [exact He0 | apply same_entry_refl].
Qed.

Lemma appendDelta_extends newMessage delta log :
  log_extends log (appendDelta newMessage delta log).
Proof.
  unfold appendDelta. destruct (last log) as [tail|] eqn:Hlast.
  - destruct (_ && _).
    + eapply log_extends_replace_last; [exact Hlast|].
      repeat split; auto.
    + apply log_extends_snoc.
  - apply log_extends_snoc.
Qed.

Lemma markLastFinal_extends log : log_extends log (markLastFinal log).
Proof.
  unfold markLastFinal. destruct (last log) as [tail|] eqn:Hlast.
  - eapply log_extends_replace_last; [exact Hlast|]. repeat split; auto.
  - apply log_extends_refl.
Qed.

Lemma merge_extends (i : string) partial log :
  Conversation.p_isFinal partial <> Some false ->
  log_extends log
    (map (fun msg =>
            if decide (Conversation.id msg = i)
            then Conversation.merge msg partial
            else msg) log).
Proof.
  intros Hpartial. apply log_extends_map. intros e.
  destruct (decide _); [|apply same_entry_refl].
  repeat split; auto. cbn.
  destruct (Conversation.p_isFinal partial) as [[]|]; cbn; congruence.
Qed.

(** A write to the log that extends it keeps "extends [before]". *)
Ltac extend_log :=
  cbn in *;
  match goal with
  | Hs : log_extends ?before _ |- log_extends ?before _ =>
      first
        [ exact Hs
        | eapply log_extends_trans; [exact Hs|];
          first [ apply log_extends_snoc
                | apply appendDelta_extends
                | apply markLastFinal_extends
                | apply merge_extends; discriminate ] ]
  end.

Lemma exec_extends_log op before :
  op <> StopSession -> (forall env, op <> StartSession env) ->
  preserves (fun s => log_extends before (conversation s)) (exec op).
Proof.
  intros Hstop Hstart.
  destruct op; cbn [exec]; try congruence.
  all: do 2 unfold_handlers.
  all: repeat match goal with
         | |- preserves _ (if ?b then _ else _) => destruct b
         end.
  all: keep extend_log.
Qed.

(** No operation removes or reorders entries, changes an entry's id, role
    or timestamp, or withdraws its finality: after any operation the
    conversation log is empty (a teardown ran) or every entry it had is
    still at its place.  Only [stopSession] and a failed [startSession]
    empty it: every other operation, a [startSession] that meets no
    failure among them, keeps every entry, and those two leave the log
    empty. *)
Theorem conversation_grows_or_resets op (s : Session) :
  (conversation (final (exec op s)) = [] \/
   log_extends (conversation s) (conversation (final (exec op s)))) /\
  (op <> StopSession ->
   (forall env, op = StartSession env -> start_succeeds env = true) ->
   log_extends (conversation s) (conversation (final (exec op s)))) /\
  (op = StopSession \/
   (exists env, op = StartSession env /\ start_succeeds env = false) ->
   conversation (final (exec op s)) = []).
Proof.
  assert (Hother : op <> StopSession -> (forall env, op <> StartSession env) ->
                   log_extends (conversation s)
                     (conversation (final (exec op s)))).
  { intros Hstop Hstart. apply exec_extends_log; try assumption.
    apply log_extends_refl. }
  destruct op as [env| | | | | | | | | | | | | | | |];
    try (split; [right|split; [intros _ _|]];
         [ apply Hother; congruence
         | apply Hother; congruence
         | intros [Hop | (env' & Hop & _)]; discriminate Hop ]).
  - cbn [exec].
    destruct (startSession_cases env s)
      as [(Hok & stream & _ & ->) | (Hfail & s' & calls & ->)];
      cbn [final conversation].
    + split; [right; apply log_extends_refl|].
      split; [intros _ _; apply log_extends_refl|].
      intros [Hop | (env' & Hop & Hfail)]; [discriminate Hop|].
      injection Hop as <-. congruence.
    + split; [left; reflexivity|].
      split; [|intros _; reflexivity].
      intros _ Hstart. specialize (Hstart env eq_refl). congruence.
  - cbn [exec]. rewrite stopSession_run. cbn [final conversation].
    split; [left; reflexivity|].
    split; [intros Hstop; contradiction | intros _; reflexivity].
Qed.

(** *** The ephemeral reference names an entry of the log *)

Lemma getOrCreateEphemeralUserId_run env (s : Session) :
  getOrCreateEphemeralUserId env s
  = if truthy (ephemeralUserMessageIdRef s)
    then mkResult (Returned (default "" (ephemeralUserMessageIdRef s))) s []
    else mkResult (Returned (uuidv4 env))
           (set_conversation
              (conversation s
               ++ [Conversation.mk (uuidv4 env) user "" (now env) false
                     (Some "speaking")])
              (set_ephemeralUserMessageIdRef (Some (uuidv4 env)) s)) [].
Proof.
  unfold getOrCreateEphemeralUserId. rewrite run_bind_gets.
  destruct (truthy (ephemeralUserMessageIdRef s)); [reflexivity|].
  unfold setConversation. step. reflexivity.
Qed.

Lemma present_extends (i : string) before after :
  log_extends before after ->
  (exists e, e ∈ before /\
             Conversation.id e = i /\ Conversation.role e = user) ->
  exists e, e ∈ after /\ Conversation.id e = i /\ Conversation.role e = user.
Proof.
  intros Hext (e & Hin & Hid & Hrole).
  apply list_elem_of_lookup in Hin as [k Hk].
  destruct (Hext k e Hk) as (e' & Hk' & Hi' & Hr' & _).
  exists e'. split; [eapply list_elem_of_lookup_2; exact Hk'|].
  split; congruence.
Qed.

Lemma getOrCreateEphemeralUserId_present env :
  preserves ephemeral_entry_present (getOrCreateEphemeralUserId env).
Proof.
  intros s Hs. rewrite getOrCreateEphemeralUserId_run.
  destruct (truthy (ephemeralUserMessageIdRef s)); [exact Hs|].
  intros i Hi. cbn in *. injection Hi as <-.
  eexists. split; [apply elem_of_app; right; apply list_elem_of_here|].
  split; reflexivity.
Qed.

(** A write keeps the invariant when it clears the reference, or leaves
    it and extends the log. *)
Ltac keep_present :=
  unfold ephemeral_entry_present in *; cbn in *;
  first
    [ assumption
    | intros ? ?; discriminate
    | match goal with
      | Hs : forall i, _ -> exists e, e ∈ ?before /\ _ |- _ =>
          let i := fresh "i" in
          let Hi := fresh "Hi" in
          intros i Hi;
          eapply (present_extends i before); [|exact (Hs i Hi)];
          first [ apply log_extends_snoc
                | apply appendDelta_extends
                | apply markLastFinal_extends
                | apply merge_extends; discriminate ]
      end ].

Lemma exec_ephemeral_entry_present op :
  preserves ephemeral_entry_present (exec op).
Proof.
  destruct op; cbn [exec].
  1: { intros s Hs.
       destruct (startSession_cases env s)
         as [(_ & stream & _ & ->) | (_ & s' & calls & ->)].
       - exact Hs.
       - intros i Hi. discriminate. }
  1: { intros s _. rewrite stopSession_run. intros i Hi. discriminate. }
  all: pose proof getOrCreateEphemeralUserId_present as Hcreate.
  all: unfold ignore, handleDataChannelMessage, dispatchMessage,
         resumeFunctionCall, replyToFunctionCall, send_if_present,
         requestData, onSpeechStoppedTimeout, consolidateAudio,
         afterTranscription, sendTextMessage, toggleMic, registerFunction,
         ondataavailable, ontrack, sampleVolume, onopen,
         channelStateChange, recorderStateChange, configureDataChannel,
         attachIndicator; cbv zeta.
  all: unfold updateEphemeralUserMessage, clearEphemeralUserMessage,
         channelStateChange, setStatus, setIsSessionActive, setIsMicMuted,
         setCurrentVolume, setMsgs, setConversation.
  all: repeat match goal with
         | |- preserves _ (if ?b then _ else _) => destruct b
         end.
  all: repeat match goal with
         | |- preserves _ (mbind _ (getOrCreateEphemeralUserId _)) =>
             apply preserves_bind; [apply Hcreate | intros ?]
         | |- preserves _ (mbind _ _) => apply preserves_bind; [|intros ?]
         | |- preserves _ (try_catch _ _) =>
             apply preserves_try_catch; [|intros ?]
         | |- preserves _ (match ?x with _ => _ end) => destruct x
         | |- preserves _ (if ?b then _ else _) => destruct b
         end.
  all: keep keep_present.
Qed.

(** In every state a run reaches, the ephemeral-id reference, when set,
    is the id of a user entry of the conversation log: the updates by id
    of a speech turn always have their entry. *)
Theorem reachable_ephemeral_entry_present (s : Session) :
  reachable s -> ephemeral_entry_present s.
Proof.
  induction 1 as [|s op Hreach IH].
  - intros i Hi. discriminate.
  - apply (exec_ephemeral_entry_present op s IH).
Qed.

(** ** Speech turns *)

Lemma dispatch_speech_started env msg :
  Msg.type msg = "input_audio_buffer.speech_started" ->
  dispatchMessage env msg
  = (getOrCreateEphemeralUserId env;;
     updateEphemeralUserMessage
       (Conversation.mkPartial (Some (Str "Listening...")) None
          (Some "speaking"));;
     modify (set_audioChunksRef [])).
Proof. intros Htype. unfold dispatchMessage. rewrite Htype. reflexivity. Qed.

(** A partial update by an id leaves the entries of other ids alone. *)
Lemma map_merge_fresh (i : string) partial log :
  (forall e, e ∈ log -> Conversation.id e <> i) ->
  map (fun msg =>
         if decide (Conversation.id msg = i)
         then Conversation.merge msg partial
         else msg) log
  = log.
Proof.
  intros Hfresh. induction log as [|e log IH]; [reflexivity|].
  cbn. rewrite IH by (intros e' He'; apply Hfresh; right; exact He').
  destruct (decide _) as [Heq|]; [|reflexivity].
  exfalso. apply (Hfresh e); [left | exact Heq].
Qed.

(** The case of the switch for a speech-started event. *)
Lemma speech_started_dispatch env msg (s : Session) :
  Msg.type msg = "input_audio_buffer.speech_started" ->
  exists s1,
    dispatchMessage env msg s = mkResult (Returned tt) s1 [] /\
    audioChunksRef s1 = [] /\
    (truthy (ephemeralUserMessageIdRef s) = true ->
     ephemeralUserMessageIdRef s1 = ephemeralUserMessageIdRef s /\
     length (conversation s1) = length (conversation s)) /\
    (truthy (ephemeralUserMessageIdRef s) = false ->
     ephemeralUserMessageIdRef s1 = Some (uuidv4 env) /\
     (uuidv4 env <> "" ->
      (forall e, e ∈ conversation s -> Conversation.id e <> uuidv4 env) ->
      conversation s1
      = conversation s
        ++ [Conversation.mk (uuidv4 env) user "Listening..." (now env)
              false (Some "speaking")])).
Proof.
  intros Htype.
  rewrite (dispatch_speech_started _ _ Htype).
  unfold mbind, M_bind.
  rewrite getOrCreateEphemeralUserId_run.
  destruct (truthy (ephemeralUserMessageIdRef s)) eqn:Href.
  - rewrite updateEphemeralUserMessage_run, Href. cbn.
    eexists. split; [reflexivity|]. split; [reflexivity|].
    split; [|discriminate]. intros _. split; [reflexivity|].
    apply length_map.
  - rewrite updateEphemeralUserMessage_run. cbn.
    destruct (String.eqb (uuidv4 env) "") eqn:Hempty; cbn.
    + eexists. split; [reflexivity|]. split; [reflexivity|].
      split; [discriminate|]. intros _. split; [reflexivity|].
      intros Hne. apply String.eqb_eq in Hempty. contradiction.
    + eexists. split; [reflexivity|]. split; [reflexivity|].
      split; [discriminate|]. intros _. split; [reflexivity|].
      intros _ Hfresh. cbn. rewrite map_app. cbn.
      rewrite map_merge_fresh by exact Hfresh.
      destruct (decide _); [reflexivity | contradiction].
Qed.

Lemma speech_started_buffer env event msg (s : Session) :
  JSON_parse_message (data event) = Some msg ->
  Msg.type msg = "input_audio_buffer.speech_started" ->
  audioChunksRef (final (handleDataChannelMessage env event s)) = [].
Proof.
  intros Hparse Htype.
  destruct (speech_started_dispatch env msg s Htype)
    as (s1 & Hrun & Hchunks & _).
  rewrite (handleDataChannelMessage_dispatched _ _ _ _ _ _ Hparse Hrun).
  exact Hchunks.
Qed.

(** A speech-started event returns, sends nothing and empties the
    audio-chunk buffer.  With an ephemeral reference outstanding it makes
    no entry: the reference and the length of the log are as they were.
    With none it takes a fresh id as the reference and, the id being new
    to the log and not empty, appends exactly one user entry, not final,
    of status "speaking" and text "Listening...". *)
Theorem speech_started_creates_or_reuses env event msg (s : Session) :
  JSON_parse_message (data event) = Some msg ->
  Msg.type msg = "input_audio_buffer.speech_started" ->
  outcome (handleDataChannelMessage env event s) = Returned (Some msg) /\
  effects (handleDataChannelMessage env event s) = [] /\
  audioChunksRef (final (handleDataChannelMessage env event s)) = [] /\
  (truthy (ephemeralUserMessageIdRef s) = true ->
   ephemeralUserMessageIdRef (final (handleDataChannelMessage env event s))
   = ephemeralUserMessageIdRef s /\
   length (conversation (final (handleDataChannelMessage env event s)))
   = length (conversation s)) /\
  (truthy (ephemeralUserMessageIdRef s) = false ->
   ephemeralUserMessageIdRef (final (handleDataChannelMessage env event s))
   = Some (uuidv4 env) /\
   (uuidv4 env <> "" ->
    (forall e, e ∈ conversation s -> Conversation.id e <> uuidv4 env) ->
    conversation (final (handleDataChannelMessage env event s))
    = conversation s
      ++ [Conversation.mk (uuidv4 env) user "Listening..." (now env) false
            (Some "speaking")])).
Proof.
  intros Hparse Htype.
  destruct (speech_started_dispatch env msg s Htype)
    as (s1 & Hrun & Hchunks & Hreuse & Hcreate).
  rewrite (handleDataChannelMessage_dispatched _ _ _ _ _ _ Hparse Hrun).
  cbn. repeat split; try assumption; try (apply Hreuse; assumption);
    try (apply Hcreate; assumption).
Qed.

(** *** The audio-chunk buffer *)

Lemma ondataavailable_run chunk (s : Session) :
  ondataavailable chunk s
  = mkResult (Returned tt)
      (if (0 <? Blob.size chunk)%nat
       then set_audioChunksRef (audioChunksRef s ++ [chunk]) s
       else s) [].
Proof.
  unfold ondataavailable, when. destruct (0 <? Blob.size chunk)%nat;
    reflexivity.
Qed.

Lemma run_cons op ops (s : Session) :
  run (op :: ops) s = run ops (final (exec op s)).
Proof. reflexivity. Qed.

Lemma run_app ops1 ops2 (s : Session) :
  run (ops1 ++ ops2) s = run ops2 (run ops1 s).
Proof. unfold run. apply foldl_app. Qed.

(** The buffer after the recorder's callbacks on [chunks]. *)
Lemma chunks_run (chunks : list Blob.t) (s : Session) :
  audioChunksRef (run (map DataAvailable chunks) s)
  = audioChunksRef s ++ filter (fun c => 0 < Blob.size c) chunks.
Proof.
  revert s. induction chunks as [|chunk chunks IH]; intros s.
  - cbn. rewrite app_nil_r. reflexivity.
  - cbn [map]. rewrite run_cons. cbn [exec].
    rewrite ondataavailable_run. cbn [final]. rewrite IH, filter_cons.
    destruct (0 <? Blob.size chunk)%nat eqn:Hsize.
    + apply Nat.ltb_lt in Hsize.
      rewrite decide_True by exact Hsize. cbn.
      rewrite <- app_assoc. reflexivity.
    + apply Nat.ltb_ge in Hsize.
      rewrite decide_False by lia. reflexivity.
Qed.

(** The recorder's callbacks append the chunks that are not empty, in
    their order of arrival, and drop the empty ones; they leave the
    conversation log, the recorder and the ephemeral reference alone. *)
Theorem chunks_buffered_in_order (chunks : list Blob.t) (s : Session) :
  audioChunksRef (run (map DataAvailable chunks) s)
  = audioChunksRef s ++ filter (fun c => 0 < Blob.size c) chunks /\
  conversation (run (map DataAvailable chunks) s) = conversation s /\
  mediaRecorderRef (run (map DataAvailable chunks) s) = mediaRecorderRef s /\
  ephemeralUserMessageIdRef (run (map DataAvailable chunks) s)
  = ephemeralUserMessageIdRef s.
Proof.
  split; [apply chunks_run|].
  revert s. induction chunks as [|chunk chunks IH]; intros s.
  - repeat split.
  - cbn [map]. rewrite run_cons. cbn [exec].
    rewrite ondataavailable_run. cbn [final].
    destruct (IH (if (0 <? Blob.size chunk)%nat
                  then set_audioChunksRef (audioChunksRef s ++ [chunk]) s
                  else s)) as (Hconv & Hrec & Href).
    rewrite Hconv, Hrec, Href.
    destruct (0 <? Blob.size chunk)%nat; repeat split.
Qed.

(** *** The end of a turn *)

Lemma consolidateAudio_run (s : Session) :
  consolidateAudio s
  = mkResult
      (Returned
         (match audioChunksRef s with
          | [] => None
          | _ :: _ =>
              Some (Blob.new (audioChunksRef s)
                      (consolidated_type (mediaRecorderRef s)))
          end)) s [].
Proof.
  unfold consolidateAudio, consolidated_type. rewrite run_bind_gets.
  destruct (audioChunksRef s) as [|chunk chunks]; [reflexivity|].
  cbn [length Nat.ltb Nat.leb]. rewrite run_bind_gets.
  destruct (mediaRecorderRef s) as [r|]; [|reflexivity].
  destruct (String.eqb (MediaRecorder.mimeType r) ""); [reflexivity|].
  destruct (String.eqb (MediaRecorder.mimeType r) "audio/webm");
    reflexivity.
Qed.

Lemma transcribeAudioWithGroq_run
    (audioBlob : Blob.t) (answer : Outcome Response.t) (s : Session) :
  Blob.size audioBlob <> 0 ->
  transcribeAudioWithGroq audioBlob answer s
  = mkResult (Returned (transcription_result answer)) s
      [Fetch "/api/transcribe-audio" (upload_filename (Blob.type audioBlob))
         audioBlob].
Proof.
  intros Hsize. apply Nat.eqb_neq in Hsize.
  unfold transcribeAudioWithGroq, transcription_result, upload_filename.
  rewrite Hsize.
  unfold try_catch, mbind, M_bind, emit, when, await, data_text, throw,
    mret, M_ret.
  cbv zeta.
  destruct answer as [response | e]; cbn [outcome final effects app];
    [|reflexivity].
  destruct (Response.ok response); cbn [outcome final effects negb app].
  - destruct (Response.json response) as [[| text] | e];
      cbn [outcome final effects app]; try reflexivity.
    destruct (truthy_text text); reflexivity.
  - destruct (Response.text response); reflexivity.
Qed.

Lemma afterTranscription_run transcript (s : Session) :
  afterTranscription transcript s
  = mkResult (Returned tt)
      (set_audioChunksRef []
         (set_ephemeralUserMessageIdRef None
            (set_conversation (transcript_written s transcript) s)))
      (transcript_sends s transcript).
Proof.
  unfold afterTranscription, clearEphemeralUserMessage, transcript_sends,
    transcript_written.
  erewrite run_bind_returned by apply updateEphemeralUserMessage_run.
  destruct (truthy (ephemeralUserMessageIdRef s)); step; cbn.
  all: destruct (dataChannelRef s) as [dataChannel|] eqn:Hdc.
  all: try destruct (decide (readyState dataChannel = open)) as [Hopen|].
  all: unfold send; rewrite ?decide_True by assumption; step.
  all: unfold emit, mret, M_ret; destruct s; cbn in *; subst; reflexivity.
Qed.

Lemma consolidated_size chunks type :
  chunks <> [] -> Forall (fun c => 0 < Blob.size c) chunks ->
  Blob.size (Blob.new chunks type) <> 0.
Proof.
  intros Hne Hall. destruct chunks as [|chunk chunks]; [contradiction|].
  apply Forall_cons in Hall as [Hchunk _].
  unfold Blob.size, Blob.new in *. cbn. rewrite length_app. lia.
Qed.

(** The timer callback on a buffer of non-empty chunks, run to its
    end. *)
Lemma onSpeechStoppedTimeout_run (answer : Outcome Response.t)
    (s : Session) :
  audioChunksRef s <> [] ->
  Forall (fun c => 0 < Blob.size c) (audioChunksRef s) ->
  onSpeechStoppedTimeout answer s
  = mkResult (Returned tt)
      (set_audioChunksRef []
         (set_ephemeralUserMessageIdRef None
            (set_conversation
               (transcript_written s (transcription_result answer)) s)))
      (Fetch "/api/transcribe-audio"
         (upload_filename (consolidated_type (mediaRecorderRef s)))
         (Blob.new (audioChunksRef s)
            (consolidated_type (mediaRecorderRef s)))
       :: transcript_sends s (transcription_result answer)).
Proof.
  intros Hne Hall.
  unfold onSpeechStoppedTimeout.
  erewrite run_bind_returned by apply consolidateAudio_run.
  destruct (audioChunksRef s) as [|chunk chunks] eqn:Hchunks;
    [contradiction|].
  erewrite run_bind_returned.
  2: { apply transcribeAudioWithGroq_run.
       apply consolidated_size; [discriminate | exact Hall]. }
  rewrite afterTranscription_run. reflexivity.
Qed.

(** When the settling timer fires on a buffer of non-empty chunks and
    nothing else runs during the transcription, the callback sends the
    consolidated audio to the transcription route once, under the file
    name matching its type; it writes whatever text comes back - a
    sentinel of a failed transcription included - into the ephemeral
    entry as final, clears the reference and the buffer, and, on an open
    channel only, sends that text to the remote endpoint and requests a
    response. *)
Theorem speech_turn_completes (answer : Outcome Response.t) (s : Session) :
  audioChunksRef s <> [] ->
  Forall (fun c => 0 < Blob.size c) (audioChunksRef s) ->
  outcome (onSpeechStoppedTimeout answer s) = Returned tt /\
  effects (onSpeechStoppedTimeout answer s)
  = Fetch "/api/transcribe-audio"
      (upload_filename (consolidated_type (mediaRecorderRef s)))
      (Blob.new (audioChunksRef s) (consolidated_type (mediaRecorderRef s)))
    :: transcript_sends s (transcription_result answer) /\
  conversation (final (onSpeechStoppedTimeout answer s))
  = transcript_written s (transcription_result answer) /\
  ephemeralUserMessageIdRef (final (onSpeechStoppedTimeout answer s))
  = None /\
  audioChunksRef (final (onSpeechStoppedTimeout answer s)) = [].
Proof.
  intros Hne Hall. rewrite (onSpeechStoppedTimeout_run answer s Hne Hall).
  repeat split.
Qed.

(** *** A whole turn *)

Lemma speech_stopped_keeps_buffer env event msg (s : Session) :
  JSON_parse_message (data event) = Some msg ->
  Msg.type msg = "input_audio_buffer.speech_stopped" ->
  audioChunksRef (final (handleDataChannelMessage env event s))
  = audioChunksRef s /\
  mediaRecorderRef (final (handleDataChannelMessage env event s))
  = mediaRecorderRef s.
Proof.
  intros Hparse Htype.
  assert (Hkeep : preserves
                    (fun s' => audioChunksRef s' = audioChunksRef s /\
                               mediaRecorderRef s' = mediaRecorderRef s)
                    (dispatchMessage env msg)).
  { rewrite (dispatch_speech_stopped _ _ Htype).
    unfold updateEphemeralUserMessage, setConversation, requestData.
    keep ltac:(cbn in *; assumption). }
  specialize (Hkeep s (conj eq_refl eq_refl)).
  destruct (dispatchMessage env msg s) as [[[]|x] s1 e1] eqn:Hrun.
  - rewrite (handleDataChannelMessage_dispatched _ _ _ _ _ _ Hparse Hrun).
    exact Hkeep.
  - rewrite (handleDataChannelMessage_caught _ _ _ _ _ _ _ Hparse Hrun).
    exact Hkeep.
Qed.

Lemma concat_nonempty_chunks (chunks : list Blob.t) :
  concat (map Blob.content (filter (fun c => 0 < Blob.size c) chunks))
  = concat (map Blob.content chunks).
Proof.
  induction chunks as [|chunk chunks IH]; [reflexivity|].
  rewrite filter_cons. destruct (decide (0 < Blob.size chunk)) as [|Hzero].
  - cbn. rewrite IH. reflexivity.
  - cbn. rewrite IH. unfold Blob.size in Hzero.
    destruct (Blob.content chunk); [reflexivity | cbn in Hzero; lia].
Qed.

Lemma transcript_sends_no_fetch (s : Session) transcript :
  filter (fun e => is_fetch e = true) (transcript_sends s transcript) = [].
Proof.
  unfold transcript_sends. destruct (dataChannelRef s) as [dc|];
    [destruct (decide _)|]; reflexivity.
Qed.

(** A turn, start to end: after a speech-started event, the recorder's
    chunks that arrive before the speech-stopped event and those that
    arrive during the settling delay (one chunk at least not empty), the
    timer callback sends one transcription request and no more, and its
    audio is the chunks' bytes put together in their order of arrival. *)
Theorem speech_round_trip env1 env2 event1 event2 msg1 msg2
    (chunks flushed : list Blob.t) (answer : Outcome Response.t)
    (s : Session) :
  JSON_parse_message (data event1) = Some msg1 ->
  Msg.type msg1 = "input_audio_buffer.speech_started" ->
  JSON_parse_message (data event2) = Some msg2 ->
  Msg.type msg2 = "input_audio_buffer.speech_stopped" ->
  (exists chunk, chunk ∈ chunks ++ flushed /\ 0 < Blob.size chunk) ->
  exists audio,
    Blob.content audio = concat (map Blob.content (chunks ++ flushed)) /\
    filter (fun e => is_fetch e = true)
      (effects
         (onSpeechStoppedTimeout answer
            (run (Message env1 event1 :: map DataAvailable chunks
                  ++ Message env2 event2 :: map DataAvailable flushed) s)))
    = [Fetch "/api/transcribe-audio" (upload_filename (Blob.type audio))
         audio].
Proof.
  intros Hp1 Ht1 Hp2 Ht2 (chunk & Hin & Hsize).
  rewrite run_cons, run_app, run_cons. cbn [exec]. rewrite !final_ignore.
  set (s1 := final (handleDataChannelMessage env1 event1 s)).
  set (s2 := run (map DataAvailable chunks) s1).
  set (s3 := final (handleDataChannelMessage env2 event2 s2)).
  set (s4 := run (map DataAvailable flushed) s3).
  assert (Hbuf : audioChunksRef s4
                 = filter (fun c => 0 < Blob.size c) (chunks ++ flushed)).
  { subst s4. rewrite chunks_run. subst s3.
    rewrite (proj1 (speech_stopped_keeps_buffer env2 event2 msg2 s2 Hp2
                      Ht2)).
    subst s2. rewrite chunks_run. subst s1.
    rewrite (speech_started_buffer env1 event1 msg1 s Hp1 Ht1).
    rewrite filter_app. reflexivity. }
  assert (Hne : audioChunksRef s4 <> []).
  { rewrite Hbuf. intros Hnil.
    assert (Hchunk : chunk ∈ filter (fun c => 0 < Blob.size c)
                               (chunks ++ flushed))
      by (apply list_elem_of_filter; split; assumption).
    rewrite Hnil in Hchunk. inversion Hchunk. }
  assert (Hall : Forall (fun c => 0 < Blob.size c) (audioChunksRef s4)).
  { rewrite Hbuf. apply Forall_forall. intros c Hc.
    apply list_elem_of_filter in Hc. apply Hc. }
  rewrite (onSpeechStoppedTimeout_run answer s4 Hne Hall). cbn [effects].
  exists (Blob.new (audioChunksRef s4)
            (consolidated_type (mediaRecorderRef s4))).
  split.
  - cbn. rewrite Hbuf. apply concat_nonempty_chunks.
  - rewrite filter_cons. cbn [is_fetch].
    rewrite decide_True by reflexivity.
    rewrite transcript_sends_no_fetch. reflexivity.
Qed.

(** ** Tool calls that return *)

Lemma send_if_present_run payload (s : Session) :
  send_if_present payload s
  = match dataChannelRef s with
    | Some dataChannel =>
        if decide (readyState dataChannel = open)
        then mkResult (Returned tt) s [DataChannelSend payload]
        else mkResult (Thrown InvalidStateError) s []
    | None => mkResult (Returned tt) s []
    end.
Proof.
  unfold send_if_present, send. rewrite run_bind_gets.
  destruct (dataChannelRef s) as [dataChannel|]; [|reflexivity].
  destruct (decide _); reflexivity.
Qed.

Lemma replyToFunctionCall_run msg (result : JSValue) (s : Session) :
  replyToFunctionCall msg result s
  = match dataChannelRef s with
    | Some dataChannel =>
        if decide (readyState dataChannel = open)
        then mkResult (Returned tt) s
               [DataChannelSend
                  (function_call_output (Msg.call_id msg)
                     (JSON_stringify result));
                DataChannelSend response_create]
        else mkResult (Thrown InvalidStateError) s []
    | None => mkResult (Returned tt) s []
    end.
Proof.
  unfold replyToFunctionCall, mbind, M_bind.
  rewrite send_if_present_run.
  destruct (dataChannelRef s) as [dataChannel|] eqn:Hdc;
    [destruct (decide (readyState dataChannel = open)) as [Hopen|]|];
    try reflexivity.
  - rewrite send_if_present_run, Hdc.
    rewrite decide_True by exact Hopen. reflexivity.
  - rewrite send_if_present_run, Hdc. reflexivity.
Qed.

Lemma dispatch_returning_tool env msg (s : Session)
    (fn : Fn) (args result : JSValue) :
  Msg.type msg = "response.function_call_arguments.done" ->
  registry_get (functionRegistry s) (Msg.name msg) = Some fn ->
  JSON_parse (Msg.arguments msg) = Some args ->
  fn args = Returned result ->
  dispatchMessage env msg s = replyToFunctionCall msg result s.
Proof.
  intros Htype Hfn Hargs Hresult.
  rewrite (dispatch_function_call _ _ Htype).
  rewrite run_bind_gets, Hfn, Hargs. step. rewrite Hresult. step.
  reflexivity.
Qed.

(** When the registered tool returns and nothing else runs during the
    call: on an open channel the handler sends the stringified result as
    the function-call output of the call id, then a request for a
    response, and logs the message; with no channel it sends nothing and
    logs the message; on a channel that is there and not open the send
    throws into the handler's [catch], so nothing is sent and the message
    is not logged. *)
Theorem registered_tool_replies env event msg (s : Session)
    (fn : Fn) (args result : JSValue) :
  JSON_parse_message (data event) = Some msg ->
  Msg.type msg = "response.function_call_arguments.done" ->
  functionRegistry s !! Msg.name msg = Some fn ->
  JSON_parse (Msg.arguments msg) = Some args ->
  fn args = Returned result ->
  (forall dataChannel,
     dataChannelRef s = Some dataChannel ->
     readyState dataChannel = open ->
     handleDataChannelMessage env event s
     = mkResult (Returned (Some msg)) (set_msgs (msgs s ++ [msg]) s)
         [DataChannelSend
            (function_call_output (Msg.call_id msg) (JSON_stringify result));
          DataChannelSend response_create]) /\
  (dataChannelRef s = None ->
   handleDataChannelMessage env event s
   = mkResult (Returned (Some msg)) (set_msgs (msgs s ++ [msg]) s) []) /\
  (forall dataChannel,
     dataChannelRef s = Some dataChannel ->
     readyState dataChannel <> open ->
     handleDataChannelMessage env event s = mkResult (Returned None) s []).
Proof.
  intros Hparse Htype Hfn Hargs Hresult.
  pose proof (dispatch_returning_tool env msg s fn args result Htype
                (registry_get_own _ _ _ Hfn) Hargs Hresult) as Hcall.
  rewrite replyToFunctionCall_run in Hcall.
  repeat split.
  - intros dataChannel Hdc Hopen.
    apply handleDataChannelMessage_dispatched; [exact Hparse|].
    rewrite Hcall, Hdc. rewrite decide_True by exact Hopen. reflexivity.
  - intros Hdc.
    apply handleDataChannelMessage_dispatched; [exact Hparse|].
    rewrite Hcall, Hdc. reflexivity.
  - intros dataChannel Hdc Hclosed.
    apply (handleDataChannelMessage_caught _ _ msg _ InvalidStateError);
      [exact Hparse|].
    rewrite Hcall, Hdc. rewrite decide_False by exact Hclosed. reflexivity.
Qed.

(** Registering a tool under a name that has one replaces it: the next
    call of that name on an open channel replies with the result of the
    tool registered last. *)
Theorem last_registration_replies env event msg (s : Session)
    (fn1 fn2 : Fn) (args result : JSValue) dataChannel :
  JSON_parse_message (data event) = Some msg ->
  Msg.type msg = "response.function_call_arguments.done" ->
  JSON_parse (Msg.arguments msg) = Some args ->
  fn2 args = Returned result ->
  dataChannelRef s = Some dataChannel ->
  readyState dataChannel = open ->
  effects
    (handleDataChannelMessage env event
       (run [RegisterFunction (Msg.name msg) fn1;
             RegisterFunction (Msg.name msg) fn2] s))
  = [DataChannelSend
       (function_call_output (Msg.call_id msg) (JSON_stringify result));
     DataChannelSend response_create].
Proof.
  intros Hparse Htype Hargs Hresult Hdc Hopen.
  set (s2 := run _ s).
  assert (Hfn : functionRegistry s2 !! Msg.name msg = Some fn2).
  { subst s2. cbn. apply lookup_insert_eq. }
  assert (Hdc2 : dataChannelRef s2 = Some dataChannel) by exact Hdc.
  pose proof (dispatch_returning_tool env msg s2 fn2 args result Htype
                (registry_get_own _ _ _ Hfn) Hargs Hresult) as Hcall.
  rewrite replyToFunctionCall_run, Hdc2 in Hcall.
  rewrite decide_True in Hcall by exact Hopen.
  rewrite (handleDataChannelMessage_dispatched _ _ _ _ _ _ Hparse Hcall).
  reflexivity.
Qed.

(** ** The handler never throws *)

(** [handleDataChannelMessage] returns whatever the payload, the tool and
    the channel do; on a payload that does not parse it changes nothing
    and calls nothing. *)
Theorem handleDataChannelMessage_never_throws env event (s : Session) :
  (exists r, outcome (handleDataChannelMessage env event s) = Returned r) /\
  (JSON_parse_message (data event) = None ->
   handleDataChannelMessage env event s = mkResult (Returned None) s []).
Proof.
  split.
  - unfold handleDataChannelMessage, try_catch.
    match goal with
    | |- context [mbind ?k ?m s] => destruct (mbind k m s) as [[r|x] s1 e1]
    end; eexists; reflexivity.
  - intros Hparse. unfold handleDataChannelMessage, try_catch.
    rewrite Hparse. reflexivity.
Qed.

(** A message of any other type than the five the handler acts on - the
    audio-committed and native-transcription events and every
    unrecognised type - is only logged: nothing else of the state
    changes and nothing is sent. *)
Theorem other_messages_only_logged env event msg (s : Session) :
  JSON_parse_message (data event) = Some msg ->
  Msg.type msg <> "input_audio_buffer.speech_started" ->
  Msg.type msg <> "input_audio_buffer.speech_stopped" ->
  Msg.type msg <> "response.audio_transcript.delta" ->
  Msg.type msg <> "response.audio_transcript.done" ->
  Msg.type msg <> "response.function_call_arguments.done" ->
  handleDataChannelMessage env event s
  = mkResult (Returned (Some msg)) (set_msgs (msgs s ++ [msg]) s) [].
Proof.
  intros Hparse H1 H2 H3 H4 H5.
  apply handleDataChannelMessage_dispatched; [exact Hparse|].
  unfold dispatchMessage. cbv zeta.
  apply String.eqb_neq in H1, H2, H3, H4, H5.
  rewrite H1, H2, H3, H4, H5.
  repeat match goal with
         | |- context [if ?b then _ else _] => destruct b
         end; reflexivity.
Qed.

(** ** Text messages *)

(** On an open channel [sendTextMessage] appends one final user entry
    with the text and sends two messages, the text as a conversation item
    and a request for a response, in that order. *)
Theorem sendTextMessage_sends env text (s : Session) dataChannel :
  dataChannelRef s = Some dataChannel ->
  readyState dataChannel = open ->
  sendTextMessage env text s
  = mkResult (Returned tt)
      (set_conversation
         (conversation s
          ++ [Conversation.mk (uuidv4 env) user text (now env) true
                (Some "final")]) s)
      [DataChannelSend (conversation_item_create text);
       DataChannelSend response_create].
Proof.
  intros Hdc Hopen. unfold sendTextMessage, setConversation, send.
  rewrite run_bind_gets, Hdc. rewrite !decide_True by exact Hopen.
  step. reflexivity.
Qed.

(** ** The recorder's encoding *)

(** [selectMimeType] takes the first candidate the runtime supports, in
    the order of preference: no candidate before the chosen one is
    supported.  When none is supported it falls back to "audio/webm". *)
Theorem selectMimeType_first_supported (supported : string -> bool) :
  selectMimeType supported ∈ mimeTypeOptions /\
  ((exists m, m ∈ mimeTypeOptions /\ supported m = true) ->
   supported (selectMimeType supported) = true /\
   exists before after,
     mimeTypeOptions = before ++ selectMimeType supported :: after /\
     Forall (fun m => supported m = false) before) /\
  ((forall m, m ∈ mimeTypeOptions -> supported m = false) ->
   selectMimeType supported = "audio/webm").
Proof.
  unfold selectMimeType, mimeTypeOptions.
  destruct (supported "audio/mp3") eqn:H1;
    [|destruct (supported "audio/mp4") eqn:H2;
      [|destruct (supported "audio/wav") eqn:H3;
        [|destruct (supported "audio/webm;codecs=opus") eqn:H4;
          [|destruct (supported "audio/webm") eqn:H5]]]].
  all: rewrite ?filter_cons, ?filter_nil.
  all: rewrite ?decide_True by assumption.
  all: repeat (rewrite decide_False by congruence).
  all: rewrite ?decide_True by assumption.
  all: cbn [head default].
  all: split; [set_solver|].
  all: split.
  all: try (intros _; split; [assumption|]).
  - exists [], ["audio/mp4"; "audio/wav"; "audio/webm;codecs=opus";
                "audio/webm"]. split; [reflexivity | constructor].
  - intros Hnone. specialize (Hnone "audio/mp3"). rewrite H1 in Hnone.
    discriminate Hnone. set_solver.
  - exists ["audio/mp3"], ["audio/wav"; "audio/webm;codecs=opus";
                           "audio/webm"].
    split; [reflexivity | repeat constructor; assumption].
  - intros Hnone. specialize (Hnone "audio/mp4"). rewrite H2 in Hnone.
    discriminate Hnone. set_solver.
  - exists ["audio/mp3"; "audio/mp4"], ["audio/webm;codecs=opus";
                                        "audio/webm"].
    split; [reflexivity | repeat constructor; assumption].
  - intros Hnone. specialize (Hnone "audio/wav"). rewrite H3 in Hnone.
    discriminate Hnone. set_solver.
  - exists ["audio/mp3"; "audio/mp4"; "audio/wav"], ["audio/webm"].
    split; [reflexivity | repeat constructor; assumption].
  - intros Hnone. specialize (Hnone "audio/webm;codecs=opus").
    rewrite H4 in Hnone. discriminate Hnone. set_solver.
  - exists ["audio/mp3"; "audio/mp4"; "audio/wav";
            "audio/webm;codecs=opus"], [].
    split; [reflexivity | repeat constructor; assumption].
  - intros _. reflexivity.
  - intros (m & Hm & Hsup).
    assert (supported m = false); [|congruence].
    repeat (apply elem_of_cons in Hm as [-> | Hm]; [assumption|]).
    inversion Hm.
  - intros _. reflexivity.
Qed.

(** Whatever encodings the runtime supports, the audio of a recorder
    started by [startSession] is uploaded under a file name, and stored
    by the transcription route under an extension, of the same format:
    mp3, mp4/m4a, wav or webm.  The recorder's MIME type is taken to be
    the one asked for, and the upload to keep the blob's type. *)
Theorem upload_names_agree (supported : string -> bool) :
  let type :=
    consolidated_type
      (Some (MediaRecorder.mk recording (selectMimeType supported))) in
  (upload_filename type, fileExtension type)
  ∈ [("audio.mp3", "mp3"); ("audio.mp4", "m4a"); ("audio.wav", "wav");
     ("audio.webm", "webm")].
Proof.
  intros type. subst type.
  assert (Hin : selectMimeType supported ∈ mimeTypeOptions).
  { unfold selectMimeType.
    destruct (head (filter _ mimeTypeOptions)) as [m|] eqn:Hhead; cbn.
    - apply head_Some_elem_of in Hhead.
      apply list_elem_of_filter in Hhead. apply Hhead.
    - unfold mimeTypeOptions. set_solver. }
  unfold mimeTypeOptions in Hin.
  repeat (apply elem_of_cons in Hin as [-> | Hin];
          [vm_compute; set_solver|]).
  inversion Hin.
Qed.

(** ** The microphone switch *)

(** With a stream that has a track, [toggleMic] flips the first track and
    sets the mic-muted flag to "the track is now disabled"; a second
    toggle puts the stream back as it was.  With no stream, or a stream
    with no track, it does nothing. *)
Theorem toggleMic_flips (s : Session) :
  (forall track tracks,
     audioStreamRef s = Some (track :: tracks) ->
     audioStreamRef (final (toggleMic s))
     = Some ({| enabled := negb (enabled track) |} :: tracks) /\
     isMicMuted (final (toggleMic s)) = enabled track /\
     audioStreamRef (final (toggleMic (final (toggleMic s))))
     = audioStreamRef s /\
     isMicMuted (final (toggleMic (final (toggleMic s))))
     = negb (enabled track)) /\
  ((audioStreamRef s = None \/ audioStreamRef s = Some []) ->
   toggleMic s = mkResult (Returned tt) s []).
Proof.
  split.
  - intros track tracks Hstream.
    assert (Hrun : forall s' track' tracks',
               audioStreamRef s' = Some (track' :: tracks') ->
               toggleMic s'
               = mkResult (Returned tt)
                   (set_isMicMuted (enabled track')
                      (set_audioStreamRef
                         (Some ({| enabled := negb (enabled track') |}
                                :: tracks')) s')) []).
    { intros s' track' tracks' Hs'.
      unfold toggleMic, setIsMicMuted. rewrite run_bind_gets, Hs'. step.
      cbn. rewrite negb_involutive. reflexivity. }
    rewrite (Hrun s track tracks Hstream). cbn [final].
    erewrite Hrun by reflexivity. cbn.
    rewrite negb_involutive, Hstream. destruct track. repeat split.
  - intros [Hnone | Hempty]; unfold toggleMic; rewrite run_bind_gets.
    + rewrite Hnone. reflexivity.
    + rewrite Hempty. reflexivity.
Qed.

(** ** The start/stop button *)

Lemma handleStartStopClick_run env (s : Session) :
  handleStartStopClick env s
  = if isSessionActive s then stopSession s else startSession env s.
Proof.
  unfold handleStartStopClick. rewrite run_bind_gets.
  destruct (isSessionActive s); reflexivity.
Qed.

(** A click on an active session and a second click whose start meets no
    failure give a session that is active again with empty logs - and
    with the tools registered before and the mic-muted flag of before:
    the teardown and the start leave both as they were. *)
Theorem restart_keeps_tools_and_mute_flag env (s : Session) :
  isSessionActive s = true ->
  start_succeeds env = true ->
  isSessionActive
    (final (handleStartStopClick env (final (handleStartStopClick env s))))
  = true /\
  conversation
    (final (handleStartStopClick env (final (handleStartStopClick env s))))
  = [] /\
  msgs
    (final (handleStartStopClick env (final (handleStartStopClick env s))))
  = [] /\
  functionRegistry
    (final (handleStartStopClick env (final (handleStartStopClick env s))))
  = functionRegistry s /\
  isMicMuted
    (final (handleStartStopClick env (final (handleStartStopClick env s))))
  = isMicMuted s.
Proof.
  intros Hactive Hstart.
  rewrite (handleStartStopClick_run env s), Hactive, stopSession_run.
  cbn [final]. rewrite handleStartStopClick_run. cbn [isSessionActive stopped].
  destruct (startSession_cases env (stopped s))
    as [(_ & stream & _ & ->) | (Hko & _)]; [|congruence].
  repeat split.
Qed.

(** ** More on the logs *)

Lemma exec_chunks_nonempty op :
  preserves
    (fun s => Forall (fun c => 0 < Blob.size c) (audioChunksRef s))
    (exec op).
Proof.
  destruct op; cbn [exec].
  1: { intros s Hs.
       destruct (startSession_cases env s)
         as [(_ & stream & _ & ->) | (_ & s' & calls & ->)].
       - exact Hs.
       - constructor. }
  1: { intros s _. rewrite stopSession_run. constructor. }
  all: try match goal with
         | |- preserves _ (ondataavailable ?chunk) =>
             intros s Hs; rewrite ondataavailable_run;
             destruct (0 <? Blob.size chunk)%nat eqn:Hsize; [|exact Hs];
             apply Nat.ltb_lt in Hsize; cbn;
             apply Forall_app; split; [exact Hs|];
             repeat constructor; exact Hsize
         end.
  all: do 2 unfold_handlers.
  all: repeat match goal with
         | |- preserves _ (if ?b then _ else _) => destruct b
         end.
  all: keep ltac:(cbn in *; first [assumption | constructor]).
Qed.

(** In every state a run reaches, each chunk of the audio-chunk buffer
    has bytes: the recorder's callback keeps empty chunks out. *)
Theorem reachable_chunks_nonempty (s : Session) :
  reachable s -> Forall (fun c => 0 < Blob.size c) (audioChunksRef s).
Proof.
  induction 1 as [|s op Hreach IH].
  - constructor.
  - apply (exec_chunks_nonempty op s IH).
Qed.

(** A transcript-done event marks the last entry of the log final,
    whatever its role, and touches no other entry; on an empty log it
    changes nothing.  So when a user entry was appended after the
    assistant entry being streamed, it is the user entry that is marked
    and the assistant entry stays as it is. *)
Theorem done_marks_tail_only env event msg (s : Session) :
  JSON_parse_message (data event) = Some msg ->
  Msg.type msg = "response.audio_transcript.done" ->
  (conversation s = [] ->
   conversation (final (handleDataChannelMessage env event s)) = []) /\
  (forall init tail,
     conversation s = init ++ [tail] ->
     conversation (final (handleDataChannelMessage env event s))
     = init
       ++ [Conversation.mk (Conversation.id tail) (Conversation.role tail)
             (Conversation.text tail) (Conversation.timestamp tail) true
             (Conversation.status tail)]).
Proof.
  intros Hparse Htype.
  destruct (handle_done env event msg s Hparse Htype) as [_ ->].
  split.
  - intros ->. reflexivity.
  - intros init tail ->. apply markLastFinal_snoc.
Qed.

End Further.


(** * The further properties at work on concrete runs *)

Section FurtherExamples.

#[local] Existing Instance example_json.

Lemma startSession_all_or_nothing_witness :
  isSessionActive (final (startSession example_start initial)) = true /\
  status (final (startSession denied_start initial)) = "Session stopped".
Proof.
  split.
  - apply (startSession_all_or_nothing example_start initial). reflexivity.
  - apply (startSession_all_or_nothing denied_start initial). reflexivity.
Defined.

Lemma conversation_grows_or_resets_witness :
  log_extends (conversation interrupted)
    (conversation
       (final (exec (Message example_env (delta_event "lo")) interrupted)))
  /\
  log_extends (conversation interrupted)
    (conversation (final (exec (StartSession example_start) interrupted)))
  /\
  conversation (final (exec (StartSession denied_start) interrupted)) = [].
Proof.
  split; [|split].
  - apply (conversation_grows_or_resets
             (Message example_env (delta_event "lo")) interrupted);
      [discriminate | intros env Hop; discriminate Hop].
  - apply (conversation_grows_or_resets (StartSession example_start)
             interrupted); [discriminate|].
    intros env Hop. injection Hop as <-. reflexivity.
  - apply (conversation_grows_or_resets (StartSession denied_start)
             interrupted).
    right. exists denied_start. split; reflexivity.
Defined.

Lemma reachable_ephemeral_entry_present_witness :
  reachable listening /\ ephemeral_entry_present listening.
Proof.
  assert (Hreach : reachable listening)
    by apply run_reachable, reachable_initial.
  split; [exact Hreach|].
  apply (reachable_ephemeral_entry_present listening Hreach).
Defined.

Lemma speech_started_creates_or_reuses_witness :
  ephemeralUserMessageIdRef
    (final (handleDataChannelMessage example_env speech_started_event
              established))
  = Some "uuid-1" /\
  length (conversation
            (final (handleDataChannelMessage example_env
                      speech_started_event listening)))
  = length (conversation listening).
Proof.
  split.
  - apply (speech_started_creates_or_reuses example_env speech_started_event
             speech_started_msg established eq_refl eq_refl).
    reflexivity.
  - apply (speech_started_creates_or_reuses example_env speech_started_event
             speech_started_msg listening eq_refl eq_refl).
    reflexivity.
Defined.

Lemma speech_turn_completes_witness :
  effects (onSpeechStoppedTimeout (heard "hello") listening)
  = [Fetch "/api/transcribe-audio" "audio.webm"
       (Blob.mk [Byte.x61; Byte.x62; Byte.x63] "audio/webm;codecs=opus");
     DataChannelSend (conversation_item_create "hello");
     DataChannelSend response_create] /\
  conversation (final (onSpeechStoppedTimeout (heard "hello") listening))
  = [Conversation.mk "uuid-1" user "hello" "t1" true (Some "final")].
Proof.
  assert (Hne : audioChunksRef listening <> []) by (vm_compute; discriminate).
  assert (Hall : Forall (fun c => 0 < Blob.size c) (audioChunksRef listening))
    by (vm_compute; repeat constructor).
  destruct (speech_turn_completes (heard "hello") listening Hne Hall)
    as (_ & He & Hc & _).
  rewrite He, Hc. split; reflexivity.
Defined.

Lemma speech_round_trip_witness :
  exists audio,
    Blob.content audio = [Byte.x61; Byte.x62; Byte.x63] /\
    filter (fun e => is_fetch e = true)
      (effects
         (onSpeechStoppedTimeout (heard "hello")
            (run (Message example_env speech_started_event
                  :: map DataAvailable [chunk_a; empty_chunk]
                  ++ Message example_env speech_stopped_event
                  :: map DataAvailable [chunk_b])
               established)))
    = [Fetch "/api/transcribe-audio" (upload_filename (Blob.type audio))
         audio].
Proof.
  apply (speech_round_trip example_env example_env speech_started_event
           speech_stopped_event speech_started_msg speech_stopped_msg
           [chunk_a; empty_chunk] [chunk_b] (heard "hello") established);
    try reflexivity.
  exists chunk_a. split; [apply list_elem_of_here | vm_compute; lia].
Defined.

Lemma registered_tool_replies_witness :
  handleDataChannelMessage example_env (function_call_event "getCurrentTime")
    with_clock_tool
  = mkResult (Returned (Some (function_call_msg "getCurrentTime")))
      (set_msgs (msgs with_clock_tool ++ [function_call_msg "getCurrentTime"])
         with_clock_tool)
      [DataChannelSend (function_call_output "call_1" "12:00");
       DataChannelSend response_create].
Proof.
  apply (proj1 (registered_tool_replies example_env
                  (function_call_event "getCurrentTime")
                  (function_call_msg "getCurrentTime") with_clock_tool
                  clock_tool "{}" "12:00" eq_refl eq_refl eq_refl eq_refl
                  eq_refl)
           {| readyState := open |});
    reflexivity.
Defined.

Lemma last_registration_replies_witness :
  effects
    (handleDataChannelMessage example_env
       (function_call_event "getCurrentTime")
       (run [RegisterFunction "getCurrentTime" throwing_tool;
             RegisterFunction "getCurrentTime" clock_tool] established))
  = [DataChannelSend (function_call_output "call_1" "12:00");
     DataChannelSend response_create].
Proof.
  apply (last_registration_replies example_env
           (function_call_event "getCurrentTime")
           (function_call_msg "getCurrentTime") established throwing_tool
           clock_tool "{}" "12:00" {| readyState := open |});
    reflexivity.
Defined.

Lemma handleDataChannelMessage_never_throws_witness :
  handleDataChannelMessage example_env garbled_event established
  = mkResult (Returned None) established [].
Proof.
  apply (handleDataChannelMessage_never_throws example_env garbled_event
           established).
  reflexivity.
Defined.

Lemma other_messages_only_logged_witness :
  handleDataChannelMessage example_env committed_event established
  = mkResult (Returned (Some committed_msg))
      (set_msgs (msgs established ++ [committed_msg]) established) [].
Proof.
  apply (other_messages_only_logged example_env committed_event
           committed_msg established);
    [reflexivity | discriminate..].
Defined.

Lemma sendTextMessage_sends_witness :
  sendTextMessage example_env "hi" established
  = mkResult (Returned tt)
      (set_conversation
         (conversation established
          ++ [Conversation.mk "uuid-1" user "hi" "t1" true (Some "final")])
         established)
      [DataChannelSend (conversation_item_create "hi");
       DataChannelSend response_create].
Proof.
  apply (sendTextMessage_sends example_env "hi" established
           {| readyState := open |});
    reflexivity.
Defined.

Lemma selectMimeType_first_supported_witness :
  isTypeSupported example_start
    (selectMimeType (isTypeSupported example_start)) = true.
Proof.
  apply (selectMimeType_first_supported (isTypeSupported example_start)).
  exists "audio/webm". split; [|reflexivity].
  unfold mimeTypeOptions. do 4 apply list_elem_of_further.
  apply list_elem_of_here.
Defined.

Lemma toggleMic_flips_witness :
  isMicMuted (final (toggleMic established)) = true /\
  toggleMic initial = mkResult (Returned tt) initial [].
Proof.
  split.
  - apply (proj1 (toggleMic_flips established) {| enabled := true |} []).
    reflexivity.
  - apply (proj2 (toggleMic_flips initial)). left. reflexivity.
Defined.

Lemma restart_keeps_tools_and_mute_flag_witness :
  isMicMuted
    (final (handleStartStopClick example_start
              (final (handleStartStopClick example_start muted))))
  = true.
Proof.
  apply (restart_keeps_tools_and_mute_flag example_start muted);
    reflexivity.
Defined.

Lemma reachable_chunks_nonempty_witness :
  reachable listening /\
  Forall (fun c => 0 < Blob.size c) (audioChunksRef listening).
Proof.
  assert (Hreach : reachable listening)
    by apply run_reachable, reachable_initial.
  split; [exact Hreach|].
  apply (reachable_chunks_nonempty listening Hreach).
Defined.

Lemma done_marks_tail_only_witness :
  conversation
    (final (handleDataChannelMessage example_env done_event interrupted))
  = [Conversation.mk "uuid-1" assistant "Hel" "t1" false None;
     Conversation.mk "uuid-2" user "hi" "t2" true (Some "final")].
Proof.
  apply (proj2 (done_marks_tail_only example_env done_event done_msg
                  interrupted eq_refl eq_refl)
           [Conversation.mk "uuid-1" assistant "Hel" "t1" false None]
           (Conversation.mk "uuid-2" user "hi" "t2" true (Some "final"))).
  reflexivity.
Defined.

End FurtherExamples.
